(** * The subscription engine of unraid-mcp

    A shallow embedding of [unraid_mcp/subscriptions/manager.py] (the
    [SubscriptionManager] class: start/stop, the reconnecting
    [_subscription_loop], the resource cache and the status report) and of the
    WebSocket URL computed by [test_subscription_query] in
    [unraid_mcp/subscriptions/diagnostics.py].

    Dictionaries are [gmap]s keyed by the subscription name, Python strings are
    [string]s, values produced by [json.loads] are the inductive [json].  The
    coroutine [_subscription_loop] is a function in a state-and-log monad: the
    state is the manager object, the log records every effect the loop has on
    the outside world (connections, frames sent, sleeps) and every write to
    the per-subscription tracking dictionaries.  What the outside world answers
    (connection refused, frames received, time-outs) is an explicit script. *)

From Stdlib Require Import ZArith QArith Qminmax Qpower Lqa String Ascii List Lia Bool.
From stdpp Require Import gmap strings.
Import ListNotations.

Close Scope Q_scope.
Set Warnings "-register-all".
Local Open Scope string_scope.
Local Open Scope Z_scope.

(** ** Python string operations used by the source *)

Module PyStr.

(** [s[n:]] *)
Fixpoint drop (n : nat) (s : string) : string :=
  match n, s with
  | O, _ => s
  | S _, EmptyString => EmptyString
  | S k, String _ rest => drop k rest
  end.

(** [s.startswith(p)] *)
Definition startswith (s p : string) : bool := String.prefix p s.

Fixpoint prefixb (p l : list ascii) : bool :=
  match p, l with
  | [], _ => true
  | _ :: _, [] => false
  | a :: p', b :: l' => Ascii.eqb a b && prefixb p' l'
  end.

(** [s.endswith(suf)]: [suf] read backwards starts [s] read backwards. *)
Definition endswith (s suf : string) : bool :=
  prefixb (List.rev (list_ascii_of_string suf)) (List.rev (list_ascii_of_string s)).

Fixpoint lstrip_chars (c : ascii) (l : list ascii) : list ascii :=
  match l with
  | [] => []
  | a :: l' => if Ascii.eqb a c then lstrip_chars c l' else l
  end.

(** [s.rstrip(c)] for a one-character set [c] *)
Definition rstrip (c : ascii) (s : string) : string :=
  string_of_list_ascii
    (List.rev (lstrip_chars c (List.rev (list_ascii_of_string s)))).

(** [s.replace(old, new)] for a non-empty [old]: occurrences are found from
    the left and do not overlap.  [skip] counts the characters of an
    occurrence already replaced that are still to be passed over. *)
Fixpoint replace_from (skip : nat) (old new s : string) : string :=
  match s with
  | EmptyString => EmptyString
  | String c rest =>
      match skip with
      | S k => replace_from k old new rest
      | O =>
          if String.prefix old s
          then new ++ replace_from (String.length old - 1) old new rest
          else String c (replace_from 0 old new rest)
      end
  end.

Definition replace (old new s : string) : string := replace_from 0 old new s.

(** [s.lower()] on ASCII letters *)
Definition lower_ascii (c : ascii) : ascii :=
  let n := nat_of_ascii c in
  if (65 <=? n)%nat && (n <=? 90)%nat then ascii_of_nat (n + 32) else c.

Fixpoint lower (s : string) : string :=
  match s with
  | EmptyString => EmptyString
  | String c rest => String (lower_ascii c) (lower rest)
  end.

End PyStr.

(** ** WebSocket URL derivation *)

(** [manager.py], lines 172-180 (the same code is in [diagnose_subscriptions]). *)
Definition derive_ws_url (UNRAID_API_URL : string) : string :=
  let ws_url :=
    if PyStr.startswith UNRAID_API_URL "https://"
    then "wss://" ++ PyStr.drop (String.length "https://") UNRAID_API_URL
    else if PyStr.startswith UNRAID_API_URL "http://"
    then "ws://" ++ PyStr.drop (String.length "http://") UNRAID_API_URL
    else UNRAID_API_URL in
  if negb (PyStr.endswith ws_url "/graphql")
  then PyStr.rstrip "/" ws_url ++ "/graphql"
  else ws_url.

(** [diagnostics.py], lines 49-52: the URL [test_subscription_query] connects to. *)
Definition test_subscription_query_ws_url (UNRAID_API_URL : string) : string :=
  PyStr.replace "http://" "ws://" (PyStr.replace "https://" "wss://" UNRAID_API_URL)
  ++ "/graphql".

(** Vocabulary of the two dialects, [manager.py] lines 287-289 and 322-324. *)
Definition start_type (selected_proto : string) : string :=
  if String.eqb selected_proto "graphql-transport-ws" then "subscribe" else "start".

Definition expected_data_type (selected_proto : string) : string :=
  if String.eqb selected_proto "graphql-transport-ws" then "next" else "data".

(** ** Values produced by [json.loads] *)

Inductive json : Type :=
| JNull
| JBool (b : bool)
| JInt (n : Z)
| JFloat (q : Q)
| JStr (s : string)
| JArr (items : list json)
| JObj (fields : list (string * json)).

(** A Python [dict] with string keys, in insertion order. *)
Fixpoint assoc {A : Type} (key : string) (fields : list (string * A)) : option A :=
  match fields with
  | [] => None
  | (k, v) :: rest => if String.eqb k key then Some v else assoc key rest
  end.

(** Python truth value: [None], [False], zero and empty containers are false. *)
Definition truthy (v : json) : bool :=
  match v with
  | JNull => false
  | JBool b => b
  | JInt n => negb (n =? 0)
  | JFloat q => negb (Qeq_bool q 0)
  | JStr s => negb (String.eqb s "")
  | JArr items => match items with [] => false | _ => true end
  | JObj fields => match fields with [] => false | _ => true end
  end.

(** [v == "lit"] for a string literal. *)
Definition str_eq (v : json) (lit : string) : bool :=
  match v with
  | JStr s => String.eqb s lit
  | _ => false
  end.

Definition type_name (v : json) : string :=
  match v with
  | JNull => "NoneType"
  | JBool _ => "bool"
  | JInt _ => "int"
  | JFloat _ => "float"
  | JStr _ => "str"
  | JArr _ => "list"
  | JObj _ => "dict"
  end.

(** ** Exceptions the loop distinguishes *)

Inductive exn : Type :=
| TimeoutError
| ConnectionClosed (msg : string)
| InvalidURI (msg : string)
| OtherException (msg : string).

Inductive result (A : Type) : Type :=
| Ok (a : A)
| Raise (e : exn).
Arguments Ok {A} a.
Arguments Raise {A} e.

(** [v.get(key, dflt)]: only a [dict] has the method, anything else raises
    [AttributeError], which the loop sees as a plain [Exception]. *)
Definition py_get (v : json) (key : string) (dflt : json) : result json :=
  match v with
  | JObj fields => Ok (default dflt (assoc key fields))
  | _ => Raise (OtherException ("'" ++ type_name v ++ "' object has no attribute 'get'"))
  end.

(** ** The manager object *)

(** [core/types.py], [SubscriptionData]; [last_updated] is the reading of the
    clock ([datetime.now()]) in seconds. *)
Record SubscriptionData : Type := {
  data : json;
  last_updated : Z;
  subscription_type : string }.

Record subscription_config : Type := {
  query_text : string;
  resource : string;
  description : string;
  auto_start : bool }.

(** An f-string whose hole is a Python value, [f"{prefix}{v}"], is kept as the
    pair of its parts; every other message is the string itself. *)
Inductive text : Type :=
| Plain (s : string)
| Fmt (prefix : string) (v : json).

Record manager : Type := {
  active_subscriptions : gmap string nat;
  resource_data : gmap string SubscriptionData;
  auto_start_enabled : bool;
  reconnect_attempts : gmap string Z;
  max_reconnect_attempts : Z;
  connection_states : gmap string string;
  last_error : gmap string text;
  subscription_configs : gmap string subscription_config }.

Definition logFileSubscription_config : subscription_config :=
  {| query_text := "subscription LogFileSubscription($path: String!) { logFile(path: $path) { path content totalLines } }";
     resource := "unraid://logs/stream";
     description := "Real-time log file streaming";
     auto_start := false |}.

Definition default_max_reconnect_attempts : Z := 10.

(** [SubscriptionManager.__init__]; the two arguments are the values read from
    [UNRAID_AUTO_START_SUBSCRIPTIONS] and [UNRAID_MAX_RECONNECT_ATTEMPTS]
    ([None] when the variable is not set). *)
Definition new_manager (env_auto_start : option string) (env_max : option Z) : manager :=
  {| active_subscriptions := ∅;
     resource_data := ∅;
     auto_start_enabled :=
       match env_auto_start with
       | None => true
       | Some s => String.eqb (PyStr.lower s) "true"
       end;
     reconnect_attempts := ∅;
     max_reconnect_attempts := default default_max_reconnect_attempts env_max;
     connection_states := ∅;
     last_error := ∅;
     subscription_configs := {[ "logFileSubscription" := logFileSubscription_config ]} |}.

(** Field updates, one per assignment form of the source. *)
Definition set_connection_state (name s : string) (m : manager) : manager :=
  {| active_subscriptions := active_subscriptions m;
     resource_data := resource_data m;
     auto_start_enabled := auto_start_enabled m;
     reconnect_attempts := reconnect_attempts m;
     max_reconnect_attempts := max_reconnect_attempts m;
     connection_states := <[name := s]> (connection_states m);
     last_error := last_error m;
     subscription_configs := subscription_configs m |}.

Definition set_reconnect_attempts (name : string) (n : Z) (m : manager) : manager :=
  {| active_subscriptions := active_subscriptions m;
     resource_data := resource_data m;
     auto_start_enabled := auto_start_enabled m;
     reconnect_attempts := <[name := n]> (reconnect_attempts m);
     max_reconnect_attempts := max_reconnect_attempts m;
     connection_states := connection_states m;
     last_error := last_error m;
     subscription_configs := subscription_configs m |}.

Definition set_last_error (name : string) (t : text) (m : manager) : manager :=
  {| active_subscriptions := active_subscriptions m;
     resource_data := resource_data m;
     auto_start_enabled := auto_start_enabled m;
     reconnect_attempts := reconnect_attempts m;
     max_reconnect_attempts := max_reconnect_attempts m;
     connection_states := connection_states m;
     last_error := <[name := t]> (last_error m);
     subscription_configs := subscription_configs m |}.

Definition set_resource_data (name : string) (d : SubscriptionData) (m : manager) : manager :=
  {| active_subscriptions := active_subscriptions m;
     resource_data := <[name := d]> (resource_data m);
     auto_start_enabled := auto_start_enabled m;
     reconnect_attempts := reconnect_attempts m;
     max_reconnect_attempts := max_reconnect_attempts m;
     connection_states := connection_states m;
     last_error := last_error m;
     subscription_configs := subscription_configs m |}.

Definition set_active_subscriptions (a : gmap string nat) (m : manager) : manager :=
  {| active_subscriptions := a;
     resource_data := resource_data m;
     auto_start_enabled := auto_start_enabled m;
     reconnect_attempts := reconnect_attempts m;
     max_reconnect_attempts := max_reconnect_attempts m;
     connection_states := connection_states m;
     last_error := last_error m;
     subscription_configs := subscription_configs m |}.

(** ** Effects of the subscription loop *)

Inductive event : Type :=
| EvAttempts (name : string) (n : Z)   (* reconnect_attempts[name] = n *)
| EvState (name : string) (s : string) (* connection_states[name] = s *)
| EvConnect (url : string)             (* websockets.connect(url, ...) *)
| EvSend (msg : json)                  (* websocket.send(json.dumps(msg)) *)
| EvSleep (seconds : Q).               (* asyncio.sleep(seconds) *)

(** A computation reads and updates the manager and appends to the log. *)
Definition M (A : Type) : Type := manager -> A * manager * list event.

Definition ret {A : Type} (a : A) : M A := fun m => (a, m, []).

Definition bind {A B : Type} (c : M A) (k : A -> M B) : M B :=
  fun m =>
    let '(a, m1, log1) := c m in
    let '(b, m2, log2) := k a m1 in
    (b, m2, (log1 ++ log2)%list).

Notation "'do' x <- c ; k" := (bind c (fun x => k))
  (at level 10, x name, c at level 100, k at level 200).
Notation "'run' c ; k" := (bind c (fun _ => k))
  (at level 10, c at level 100, k at level 200).

Definition emit (e : event) : M unit := fun m => (tt, m, [e]).
Definition read {A : Type} (f : manager -> A) : M A := fun m => (f m, m, []).

Definition write_state (name s : string) : M unit :=
  fun m => (tt, set_connection_state name s m, [EvState name s]).
Definition write_attempts (name : string) (n : Z) : M unit :=
  fun m => (tt, set_reconnect_attempts name n m, [EvAttempts name n]).
Definition write_error (name : string) (t : text) : M unit :=
  fun m => (tt, set_last_error name t m, []).
Definition write_data (name : string) (d : SubscriptionData) : M unit :=
  fun m => (tt, set_resource_data name d m, []).

(** ** What the outside world does during one connection attempt *)

Inductive frame : Type :=
| Malformed (raw err : string)   (* json.loads raises JSONDecodeError(err) *)
| Parsed (v : json).             (* json.loads returns v *)

Inductive recv : Type :=
| RecvRaises (e : exn)
| RecvFrame (f : frame).

Record arrival : Type := {
  at_time : Z;        (* datetime.now() while the frame is handled *)
  content : frame }.

Inductive stream_end : Type :=
| EndOfStream                 (* the iteration over the socket stops *)
| StreamRaises (e : exn).     (* the iteration raises *)

Record opened : Type := {
  subprotocol : option string;  (* websocket.subprotocol *)
  init_reply : recv;            (* wait_for(websocket.recv(), timeout=30) *)
  messages : list arrival;      (* frames delivered to the receive loop *)
  ending : stream_end }.

Inductive attempt_outcome : Type :=
| ConnectRaises (e : exn)       (* websockets.connect raises *)
| Opens (o : opened).

Inductive flow : Type := Break | Fallthrough.

Inductive loop_status : Type :=
| Returned    (* the coroutine left [while True] *)
| Awaiting.   (* the script is used up: the coroutine waits for the world *)

Record settings : Type := {
  UNRAID_API_URL : option string;
  UNRAID_API_KEY : option string }.

(** Truth value of an optional string, as in [if not UNRAID_API_URL]. *)
Definition configured (o : option string) : option string :=
  match o with
  | Some s => if String.eqb s "" then None else Some s
  | None => None
  end.

(** ** The subscription loop, [manager.py] lines 145-443 *)

Section Loop.

Variable cfg : settings.

(** Lines 215-235: the [connection_init] message. *)
Definition init_payload : json :=
  match configured (UNRAID_API_KEY cfg) with
  | Some key =>
      JObj [("type", JStr "connection_init");
            ("payload",
              JObj [("X-API-Key", JStr key);
                    ("x-api-key", JStr key);
                    ("authorization", JStr ("Bearer " ++ key));
                    ("Authorization", JStr ("Bearer " ++ key));
                    ("headers",
                      JObj [("X-API-Key", JStr key);
                            ("x-api-key", JStr key);
                            ("Authorization", JStr ("Bearer " ++ key))])])]
  | None => JObj [("type", JStr "connection_init")]
  end.

(** Lines 290-294. *)
Definition subscription_message
    (subscription_name selected_proto query : string) (variables : json) : json :=
  JObj [("id", JStr subscription_name);
        ("type", JStr (start_type selected_proto));
        ("payload", JObj [("query", JStr query); ("variables", variables)])].

(** Lines 326-387, the dispatch on one decoded message; [true] is the
    [break] out of the receive loop.  The result is [Raise] when a [.get]
    is applied to something that is not a dict. *)
Definition dispatch (subscription_name selected_proto : string) (now : Z)
    (data : json) : M (result bool) :=
  match py_get data "type" (JStr "unknown") with
  | Raise e => ret (Raise e)
  | Ok _ =>
      match py_get data "type" JNull, py_get data "id" JNull with
      | Ok ty, Ok id =>
          if str_eq ty (expected_data_type selected_proto) && str_eq id subscription_name
          then
            match py_get data "payload" (JObj []) with
            | Raise e => ret (Raise e)
            | Ok payload =>
                match py_get payload "data" JNull, py_get payload "errors" JNull with
                | Ok d, Ok errors =>
                    if truthy d
                    then
                      run write_data subscription_name
                            {| data := d;
                               last_updated := now;
                               subscription_type := subscription_name |};
                      ret (Ok false)
                    else if truthy errors
                    then
                      run write_error subscription_name (Fmt "GraphQL errors: " errors);
                      ret (Ok false)
                    else ret (Ok false)
                | Raise e, _ => ret (Raise e)
                | _, Raise e => ret (Raise e)
                end
            end
          else if str_eq ty "ping"
          then
            run emit (EvSend (JObj [("type", JStr "pong")]));
            ret (Ok false)
          else if str_eq ty "error"
          then
            match py_get data "payload" (JObj []) with
            | Raise e => ret (Raise e)
            | Ok error_payload =>
                run write_error subscription_name (Fmt "Subscription error: " error_payload);
                run write_state subscription_name "error";
                ret (Ok false)
            end
          else if str_eq ty "complete"
          then
            run write_state subscription_name "completed";
            ret (Ok true)
          else ret (Ok false)
      | Raise e, _ => ret (Raise e)
      | _, Raise e => ret (Raise e)
      end
  end.

(** Lines 312-410, the body of [async for]: a frame that does not decode and
    an exception while a message is handled are logged and the loop goes on. *)
Definition handle_message (subscription_name selected_proto : string)
    (a : arrival) : M bool :=
  match content a with
  | Malformed _ _ => ret false
  | Parsed data =>
      do r <- dispatch subscription_name selected_proto (at_time a) data;
      match r with
      | Ok stop => ret stop
      | Raise _ => ret false
      end
  end.

(** Line 311, [async for message in websocket]. *)
Fixpoint receive_loop (subscription_name selected_proto : string)
    (msgs : list arrival) (fin : stream_end) : M (result unit) :=
  match msgs with
  | [] =>
      match fin with
      | EndOfStream => ret (Ok tt)
      | StreamRaises e => ret (Raise e)
      end
  | a :: rest =>
      do stop <- handle_message subscription_name selected_proto a;
      if stop then ret (Ok tt)
      else receive_loop subscription_name selected_proto rest fin
  end.

(** Lines 283-410: subscribe, then listen.  Leaving the receive loop leaves
    the [async with] block and the [try] without a [break]. *)
Definition subscribe_and_listen (subscription_name selected_proto query : string)
    (variables : json) (o : opened) : M (result flow) :=
  run emit (EvSend (subscription_message subscription_name selected_proto query variables));
  run write_state subscription_name "subscribed";
  do r <- receive_loop subscription_name selected_proto (messages o) (ending o);
  match r with
  | Ok _ => ret (Ok Fallthrough)
  | Raise e => ret (Raise e)
  end.

(** Lines 244-410: what follows the answer to [connection_init]. *)
Definition handle_init_reply (subscription_name selected_proto query : string)
    (variables : json) (o : opened) : M (result flow) :=
  match init_reply o with
  | RecvRaises e => ret (Raise e)
  | RecvFrame (Malformed _ err) =>
      run write_error subscription_name (Plain ("Invalid JSON in init response: " ++ err));
      ret (Ok Break)
  | RecvFrame (Parsed init_data) =>
      match py_get init_data "type" JNull with
      | Raise e => ret (Raise e)
      | Ok ty =>
          if str_eq ty "connection_ack"
          then
            run write_state subscription_name "authenticated";
            subscribe_and_listen subscription_name selected_proto query variables o
          else if str_eq ty "connection_error"
          then
            match py_get init_data "payload" (JObj []) with
            | Raise e => ret (Raise e)
            | Ok error_payload =>
                run write_error subscription_name (Fmt "Authentication error: " error_payload);
                run write_state subscription_name "auth_failed";
                ret (Ok Break)
            end
          else subscribe_and_listen subscription_name selected_proto query variables o
      end
  end.

(** Lines 201-242, the head of the body of [async with websockets.connect(...)]:
    the counter is reset as soon as the connection is open. *)
Definition session (subscription_name query : string) (variables : json)
    (o : opened) : M (result flow) :=
  let selected_proto :=
    match configured (subprotocol o) with Some p => p | None => "none" end in
  run write_state subscription_name "connected";
  run write_attempts subscription_name 0;
  run emit (EvSend init_payload);
  handle_init_reply subscription_name selected_proto query variables o.

(** Lines 167-199: the [try] block.  The second component is the value of
    the local [retry_delay] when the block is left. *)
Definition try_block (subscription_name query : string) (variables : json)
    (retry_delay : Q) (w : attempt_outcome) : M (Q * result flow) :=
  match configured (UNRAID_API_URL cfg) with
  | None => ret (retry_delay, Raise (OtherException "UNRAID_API_URL is not configured"))
  | Some url =>
      run emit (EvConnect (derive_ws_url url));
      match w with
      | ConnectRaises e => ret (retry_delay, Raise e)
      | Opens o =>
          do r <- session subscription_name query variables o;
          ret (5%Q, r)
      end
  end.

(** Lines 412-435: the [except] clauses. *)
Definition handle_exception (subscription_name : string) (e : exn) : M flow :=
  match e with
  | TimeoutError =>
      run write_error subscription_name (Plain "Connection or authentication timeout");
      run write_state subscription_name "timeout";
      ret Fallthrough
  | ConnectionClosed msg =>
      run write_error subscription_name (Plain ("WebSocket connection closed: " ++ msg));
      run write_state subscription_name "disconnected";
      ret Fallthrough
  | InvalidURI msg =>
      run write_error subscription_name (Plain ("Invalid WebSocket URI: " ++ msg));
      run write_state subscription_name "invalid_uri";
      ret Break
  | OtherException msg =>
      run write_error subscription_name (Plain ("Unexpected error: " ++ msg));
      run write_state subscription_name "error";
      ret Fallthrough
  end.

Definition max_retry_delay : Q := 300%Q.

(** Line 438. Python's [min] returns its first argument on a tie, as [Qmin]
    does.  The delays are 5 * 3^k / 2^k for k <= 10, or 300: binary floating
    point represents each of them exactly, so rationals lose nothing. *)
Definition next_delay (retry_delay : Q) : Q :=
  Qmin (retry_delay * (3 # 2))%Q max_retry_delay.

(** The [while True] loop from the state in which the local [retry_delay]
    has the given value.  The i-th element of [script] is what the world
    does during the i-th pass. *)
Fixpoint subscription_loop_from (subscription_name query : string) (variables : json)
    (retry_delay : Q) (script : list attempt_outcome) : M loop_status :=
  do count <- read (fun m => default 0 (reconnect_attempts m !! subscription_name));
  let attempt := count + 1 in
  run write_attempts subscription_name attempt;
  do max <- read max_reconnect_attempts;
  if attempt >? max
  then
    run write_state subscription_name "max_retries_exceeded";
    ret Returned
  else
    match script with
    | [] => ret Awaiting
    | w :: rest =>
        do tr <- try_block subscription_name query variables retry_delay w;
        do fl <- match snd tr with
                 | Ok fl => ret fl
                 | Raise e => handle_exception subscription_name e
                 end;
        match fl with
        | Break => ret Returned
        | Fallthrough =>
            let retry_delay' := next_delay (fst tr) in
            run write_state subscription_name "reconnecting";
            run emit (EvSleep retry_delay');
            subscription_loop_from subscription_name query variables retry_delay' rest
        end
    end.

(** Lines 149-150: the loop starts with [retry_delay = 5]. *)
Definition subscription_loop (subscription_name query : string) (variables : json)
    (script : list attempt_outcome) : M loop_status :=
  subscription_loop_from subscription_name query variables 5%Q script.

End Loop.

(** ** Reading the manager *)

(** Lines 445-456. *)
Definition get_resource_data (resource_name : string) (m : manager) : option json :=
  match resource_data m !! resource_name with
  | Some d => Some (data d)
  | None => None
  end.

(** Lines 458-462. *)
Definition list_active_subscriptions (m : manager) : list string :=
  (map_to_list (active_subscriptions m)).*1.

Record runtime_status : Type := {
  st_active : bool;
  st_connection_state : string;
  st_reconnect_attempts : Z;
  st_last_error : option text }.

Record data_status : Type := {
  st_available : bool;
  st_last_updated : option Z;
  st_age_seconds : option Z }.

Record sub_status : Type := {
  st_resource : string;
  st_description : string;
  st_auto_start : bool;
  st_runtime : runtime_status;
  st_data : data_status }.

(** Lines 464-498: one entry per registry entry; [now] is [datetime.now()]. *)
Definition status_entry (now : Z) (m : manager) (sub_name : string)
    (config : subscription_config) : sub_status :=
  {| st_resource := resource config;
     st_description := description config;
     st_auto_start := auto_start config;
     st_runtime :=
       {| st_active := bool_decide (is_Some (active_subscriptions m !! sub_name));
          st_connection_state := default "not_started" (connection_states m !! sub_name);
          st_reconnect_attempts := default 0 (reconnect_attempts m !! sub_name);
          st_last_error := last_error m !! sub_name |};
     st_data :=
       match resource_data m !! sub_name with
       | Some data_info =>
           {| st_available := true;
              st_last_updated := Some (last_updated data_info);
              st_age_seconds := Some (now - last_updated data_info) |}
       | None =>
           {| st_available := false; st_last_updated := None; st_age_seconds := None |}
       end |}.

Definition get_subscription_status (now : Z) (m : manager) : gmap string sub_status :=
  map_imap (fun sub_name config => Some (status_entry now m sub_name config))
    (subscription_configs m).

(** ** Starting and stopping: the manager and the tasks of the event loop *)

Inductive task_state : Type :=
| TaskRunning      (* the coroutine is suspended somewhere in the loop *)
| TaskFinished     (* the coroutine returned *)
| TaskCancelled.   (* the task was cancelled and has ended *)

Record task : Type := {
  task_name : string;
  task_query : string;
  task_variables : json;
  task_status : task_state }.

(** A [Task] object is its index in [tasks], the tasks ever created. *)
Record system : Type := {
  mgr : manager;
  tasks : list task }.

Definition initial_system (m : manager) : system := {| mgr := m; tasks := [] |}.

(** [variables or {}] *)
Definition or_empty (variables : option json) : json :=
  match variables with
  | Some v => if truthy v then v else JObj []
  | None => JObj []
  end.

(** Lines 93-125.  [asyncio.create_task] does not fail inside a running event
    loop, so the [except] branch is not reached. *)
Definition start_subscription (subscription_name query : string)
    (variables : option json) (s : system) : system :=
  if decide (is_Some (active_subscriptions (mgr s) !! subscription_name))
  then s
  else
    let m1 := set_reconnect_attempts subscription_name 0 (mgr s) in
    let m2 := set_connection_state subscription_name "starting" m1 in
    let t := length (tasks s) in
    let m3 := set_active_subscriptions
                (<[subscription_name := t]> (active_subscriptions m2)) m2 in
    let m4 := set_connection_state subscription_name "active" m3 in
    {| mgr := m4;
       tasks := tasks s ++
                [{| task_name := subscription_name;
                    task_query := query;
                    task_variables := or_empty variables;
                    task_status := TaskRunning |}] |}.

(** [task.cancel()] followed by [await task]: a running task ends cancelled,
    a task that has ended already stays as it is. *)
Definition cancel (t : task) : task :=
  match task_status t with
  | TaskRunning =>
      {| task_name := task_name t;
         task_query := task_query t;
         task_variables := task_variables t;
         task_status := TaskCancelled |}
  | _ => t
  end.

(** Lines 127-143. *)
Definition stop_subscription (subscription_name : string) (s : system) : system :=
  match active_subscriptions (mgr s) !! subscription_name with
  | Some t =>
      let m1 := set_active_subscriptions
                  (delete subscription_name (active_subscriptions (mgr s))) (mgr s) in
      {| mgr := set_connection_state subscription_name "stopped" m1;
         tasks := alter cancel t (tasks s) |}
  | None => s
  end.

(** The coroutine of task [t] returns (a [break] in the loop). *)
Definition finish (t : task) : task :=
  match task_status t with
  | TaskRunning =>
      {| task_name := task_name t;
         task_query := task_query t;
         task_variables := task_variables t;
         task_status := TaskFinished |}
  | _ => t
  end.

(** What can happen to the system between two observations. *)
Inductive step : system -> system -> Prop :=
| step_start name query variables s :
    step s (start_subscription name query variables s)
| step_stop name s :
    step s (stop_subscription name s)
| step_task_returns t s :
    step s {| mgr := mgr s; tasks := alter finish t (tasks s) |}
| step_task_writes m' s :
    (* a running loop writes the tracking dictionaries and the cache only *)
    active_subscriptions m' = active_subscriptions (mgr s) ->
    step s {| mgr := m'; tasks := tasks s |}.

Inductive reachable (m0 : manager) : system -> Prop :=
| reachable_init : reachable m0 (initial_system m0)
| reachable_step s s' : reachable m0 s -> step s s' -> reachable m0 s'.

Definition is_running (name : string) (t : task) : bool :=
  String.eqb (task_name t) name &&
  match task_status t with TaskRunning => true | _ => false end.

(** Number of tasks of the event loop that run the loop for [name]. *)
Definition running_tasks (name : string) (s : system) : nat :=
  length (List.filter (is_running name) (tasks s)).

(** The bookkeeping of the manager agrees with the event loop: a running task
    is the one registered under its name, and a registered handle is a task
    created for that name. *)
Definition registered_tasks (s : system) : Prop :=
  (forall (i : nat) (t : task),
     tasks s !! i = Some t -> task_status t = TaskRunning ->
     active_subscriptions (mgr s) !! task_name t = Some i) /\
  (forall (n : string) (i : nat),
     active_subscriptions (mgr s) !! n = Some i ->
     exists t, tasks s !! i = Some t /\ task_name t = n).

(** ** Reading a log *)

Definition connections (log : list event) : list string :=
  omap (fun e => match e with EvConnect url => Some url | _ => None end) log.

(** Number of connection attempts made. *)
Definition connects (log : list event) : nat := length (connections log).

Definition sent (log : list event) : list json :=
  omap (fun e => match e with EvSend msg => Some msg | _ => None end) log.

Definition sleeps (log : list event) : list Q :=
  omap (fun e => match e with EvSleep d => Some d | _ => None end) log.

Definition attempts_written (log : list event) : list Z :=
  omap (fun e => match e with EvAttempts _ n => Some n | _ => None end) log.

Definition states_written (log : list event) : list string :=
  omap (fun e => match e with EvState _ s => Some s | _ => None end) log.

(** The value [reconnect_attempts.get(name, 0)]. *)
Definition counter (name : string) (m : manager) : Z :=
  default 0 (reconnect_attempts m !! name).

(** [prepend log r]: the run [r] with [log] in front of its log. *)
Definition prepend {A : Type} (log : list event) (r : A * manager * list event) :
    A * manager * list event :=
  let '(a, m, log') := r in (a, m, (log ++ log')%list).

(** ** Vocabulary for statements about the loop *)

(** The state and the message that [handle_exception] records. *)
Definition failure_state (e : exn) : string :=
  match e with
  | TimeoutError => "timeout"
  | ConnectionClosed _ => "disconnected"
  | InvalidURI _ => "invalid_uri"
  | OtherException _ => "error"
  end.

Definition failure_text (e : exn) : text :=
  match e with
  | TimeoutError => Plain "Connection or authentication timeout"
  | ConnectionClosed msg => Plain ("WebSocket connection closed: " ++ msg)
  | InvalidURI msg => Plain ("Invalid WebSocket URI: " ++ msg)
  | OtherException msg => Plain ("Unexpected error: " ++ msg)
  end.

(** Every exception but [InvalidURI] leads to the backoff. *)
Definition retryable (e : exn) : bool :=
  match e with
  | InvalidURI _ => false
  | _ => true
  end.

(** The manager after a pass whose connection attempt raised [e]. *)
Definition after_failure (name : string) (e : exn) (m : manager) : manager :=
  set_connection_state name "reconnecting"
    (set_connection_state name (failure_state e)
       (set_last_error name (failure_text e)
          (set_reconnect_attempts name (counter name m + 1) m))).

Definition after_failures (name : string) (es : list exn) (m : manager) : manager :=
  fold_left (fun m e => after_failure name e m) es m.

(** The log of the pass number [attempt] whose connection attempt raised [e]
    and that ended with a sleep of [delay] seconds. *)
Definition failure_log (name url : string) (attempt : Z) (e : exn) (delay : Q) :
    list event :=
  [EvAttempts name attempt; EvConnect (derive_ws_url url);
   EvState name (failure_state e); EvState name "reconnecting"; EvSleep delay].

Fixpoint failures_log (name url : string) (count : Z) (retry_delay : Q)
    (es : list exn) : list event :=
  match es with
  | [] => []
  | e :: es' =>
      (failure_log name url (count + 1) e (next_delay retry_delay) ++
       failures_log name url (count + 1) (next_delay retry_delay) es')%list
  end.

(** The value of [retry_delay] after [k] passes that ended in the backoff
    without a connection having opened. *)
Definition backoff_delay (k : nat) : Q := Nat.iter k next_delay 5%Q.

(** ** A concrete installation, for examples *)

Definition example_settings : settings :=
  {| UNRAID_API_URL := Some "https://host"; UNRAID_API_KEY := Some "secret" |}.

(** The manager right after [start_subscription("logFileSubscription", ...)]. *)
Definition example_started (env_max : option Z) : manager :=
  mgr (start_subscription "logFileSubscription"
         (query_text logFileSubscription_config)
         (Some (JObj [("path", JStr "/var/log/syslog")]))
         (initial_system (new_manager None env_max))).

Definition example_variables : json := JObj [("path", JStr "/var/log/syslog")].

Definition refused : exn := OtherException "[Errno 111] Connection refused".

Definition ack : json := JObj [("type", JStr "connection_ack")].


(** The server acknowledges and then closes without sending anything. *)
Definition example_silent : opened :=
  {| subprotocol := Some "graphql-transport-ws";
     init_reply := RecvFrame (Parsed ack);
     messages := [];
     ending := StreamRaises (ConnectionClosed "no close frame received or sent") |}.

(** The server rejects the API key. *)
Definition example_rejected : opened :=
  {| subprotocol := Some "graphql-transport-ws";
     init_reply :=
       RecvFrame (Parsed (JObj [("type", JStr "connection_error");
                                ("payload", JObj [("message", JStr "Unauthorized")])]));
     messages := [];
     ending := EndOfStream |}.

(** A cache that holds an earlier payload for subscription ["S"]. *)
Definition example_cached : manager :=
  set_resource_data "S"
    {| data := JObj [("x", JInt 1)]; last_updated := 100; subscription_type := "S" |}
    (new_manager None None).

(** [{"type": "next", "id": "S", "payload": {"data": d}}] *)
Definition next_message (d : json) : json :=
  JObj [("type", JStr "next"); ("id", JStr "S"); ("payload", JObj [("data", d)])].

(** ** Vocabulary for passes in which the connection opens *)

(** An event that neither touches the attempt counter nor connects, sleeps or
    records that the attempts are used up. *)
Definition quiet_event (e : event) : Prop :=
  match e with
  | EvAttempts _ _ | EvConnect _ | EvSleep _ => False
  | EvState _ s => s <> "max_retries_exceeded"
  | EvSend _ => True
  end.

(** A computation that logs quiet events only and leaves the attempt counters
    and the maximum alone. *)
Definition quiet {A : Type} (c : M A) : Prop :=
  forall m : manager,
    Forall quiet_event (c m).2 /\
    reconnect_attempts (c m).1.2 = reconnect_attempts m /\
    max_reconnect_attempts (c m).1.2 = max_reconnect_attempts m.

Definition stream_retryable (fin : stream_end) : bool :=
  match fin with
  | EndOfStream => true
  | StreamRaises e => retryable e
  end.

(** The connection opens and the pass then ends in the backoff: the wait for
    the answer to [connection_init] raises (a time-out, a closed connection),
    or the answer is neither malformed nor a [connection_error] and the
    receive loop ends. *)
Definition ends_in_backoff (o : opened) : bool :=
  match init_reply o with
  | RecvRaises e => retryable e
  | RecvFrame (Malformed _ _) => false
  | RecvFrame (Parsed init_data) =>
      match py_get init_data "type" JNull with
      | Raise _ => true
      | Ok ty =>
          if str_eq ty "connection_ack" then stream_retryable (ending o)
          else if str_eq ty "connection_error" then false
          else stream_retryable (ending o)
      end
  end.

(** The acknowledgement of [connection_init] never arrives. *)
Definition example_ack_timeout : opened :=
  {| subprotocol := Some "graphql-transport-ws";
     init_reply := RecvRaises TimeoutError;
     messages := [];
     ending := EndOfStream |}.

(** The [try] block ends without [break] and without [InvalidURI]. *)
Definition backs_off (r : result flow) : bool :=
  match r with
  | Ok Fallthrough => true
  | Ok Break => false
  | Raise e => retryable e
  end.

(** [{"type": "data", "id": "S", "payload": {"data": d}}] *)
Definition data_message (d : json) : json :=
  JObj [("type", JStr "data"); ("id", JStr "S"); ("payload", JObj [("data", d)])].

(** The server selects [proto], acknowledges, delivers [msgs] and closes. *)
Definition example_stream (proto : string) (msgs : list json) : opened :=
  {| subprotocol := Some proto;
     init_reply := RecvFrame (Parsed ack);
     messages := map (fun v => {| at_time := 250; content := Parsed v |}) msgs;
     ending := EndOfStream |}.

(** One pass of the loop of subscription ["S"] against [example_stream]. *)
Definition example_run (proto : string) (msgs : list json) :
    loop_status * manager * list event :=
  subscription_loop example_settings "S" "subscription { x }" (JObj [])
    [Opens (example_stream proto msgs)]
    (mgr (start_subscription "S" "subscription { x }" None
            (initial_system (new_manager None None)))).

(** The exception raised by the [try] block when no base URL is configured. *)
Definition not_configured : exn := OtherException "UNRAID_API_URL is not configured".

(** The server acknowledges, sends [complete] and then a data message. *)
Definition example_completed : opened :=
  {| subprotocol := Some "graphql-transport-ws";
     init_reply := RecvFrame (Parsed ack);
     messages :=
       [{| at_time := 250; content := Parsed (JObj [("type", JStr "complete")]) |};
        {| at_time := 251;
           content := Parsed (JObj [("type", JStr "next");
                                    ("id", JStr "logFileSubscription");
                                    ("payload", JObj [("data", JInt 1)])]) |}];
     ending := StreamRaises (InvalidURI "unused") |}.

(** ** Vocabulary for what a loop leaves alone *)

(** [m'] differs from [m] at most in the entries of [name] in the cache and in
    the three tracking dictionaries. *)
Definition same_elsewhere (name : string) (m m' : manager) : Prop :=
  active_subscriptions m' = active_subscriptions m /\
  subscription_configs m' = subscription_configs m /\
  max_reconnect_attempts m' = max_reconnect_attempts m /\
  auto_start_enabled m' = auto_start_enabled m /\
  forall n : string, n <> name ->
    connection_states m' !! n = connection_states m !! n /\
    reconnect_attempts m' !! n = reconnect_attempts m !! n /\
    last_error m' !! n = last_error m !! n /\
    resource_data m' !! n = resource_data m !! n.

(** Every cached payload is true in Python's sense. *)
Definition cache_truthy (m : manager) : Prop :=
  forall (n : string) (d : SubscriptionData),
    resource_data m !! n = Some d -> truthy (data d) = true.

(** The manager after a computation is related to the manager before. *)
Definition preserves {A : Type} (R : manager -> manager -> Prop) (c : M A) : Prop :=
  forall m : manager, R m (c m).1.2.

(** ** The log stream resource, [resources.py] lines 80-92 *)

(** What [logs_stream_resource] serialises: the cached payload, or the notice
    that no data has arrived yet. *)
Inductive resource_reply : Type :=
| ResourceData (d : json)
| NoSubscriptionDataYet.

Definition logs_stream_resource (m : manager) : resource_reply :=
  match get_resource_data "logFileSubscription" m with
  | Some d => if truthy d then ResourceData d else NoSubscriptionDataYet
  | None => NoSubscriptionDataYet
  end.

(** A sleep between 7.5 and 300 seconds. *)
Definition backoff_bounds (d : Q) : Prop := ((15 # 2) <= d /\ d <= 300)%Q.

(** ** Auto-start *)

(** [manager.py] lines 75-87, the body of the loop over the registry.
    [start_subscription] does not raise, so the [except] branch is not
    reached. *)
Definition auto_start_one (s : system) (entry : string * subscription_config) : system :=
  if auto_start entry.2
  then start_subscription entry.1 (query_text entry.2) None s
  else s.

(** [manager.py] lines 66-91.  The order in which the registry is walked
    decides only which task index a subscription gets. *)
Definition auto_start_all_subscriptions (s : system) : system :=
  if auto_start_enabled (mgr s)
  then foldl auto_start_one s (map_to_list (subscription_configs (mgr s)))
  else s.





(** A data message of dialect [selected_proto] for [name] carrying [d],
    handled at time [now]. *)
Definition data_frame (selected_proto name : string) (entry : Z * json) : arrival :=
  {| at_time := entry.1;
     content :=
       Parsed (JObj [("type", JStr (expected_data_type selected_proto));
                     ("id", JStr name);
                     ("payload", JObj [("data", entry.2)])]) |}.

(** ** Plain hosts *)

(** No slash occurs in the string. *)
Fixpoint no_slash (s : string) : bool :=
  match s with
  | EmptyString => true
  | String c rest => negb (Ascii.eqb c "/") && no_slash rest
  end.

Definition http_scheme (secure : bool) : string :=
  if secure then "https://" else "http://".

Definition ws_scheme (secure : bool) : string :=
  if secure then "wss://" else "ws://".

(** The server answers [connection_init] with JSON that is not an object. *)
Definition example_init_array : opened :=
  {| subprotocol := Some "graphql-transport-ws";
     init_reply := RecvFrame (Parsed (JArr [JStr "connection_ack"]));
     messages := [];
     ending := EndOfStream |}.

(** * Properties *)

(** ** String operations *)

Lemma prefixb_app (p l : list ascii) : PyStr.prefixb p (p ++ l)%list = true.
Proof.
  induction p as [|a p IH]; simpl; [reflexivity|].
  rewrite Ascii.eqb_refl. exact IH.
Qed.

Lemma list_ascii_of_string_app (s t : string) :
  list_ascii_of_string (s ++ t) =
  (list_ascii_of_string s ++ list_ascii_of_string t)%list.
Proof. induction s as [|c s IH]; simpl; [reflexivity|]. now rewrite IH. Qed.

Lemma endswith_app (s suf : string) : PyStr.endswith (s ++ suf) suf = true.
Proof.
  unfold PyStr.endswith. rewrite list_ascii_of_string_app, List.rev_app_distr.
  apply prefixb_app.
Qed.

Lemma prefix_app (p s : string) : String.prefix p (p ++ s) = true.
Proof.
  induction p as [|c p IH]; simpl.
  - now destruct s.
  - destruct (ascii_dec c c) as [_|n]; [exact IH | now elim n].
Qed.

Lemma startswith_app (p s : string) : PyStr.startswith (p ++ s) p = true.
Proof. apply prefix_app. Qed.

Lemma drop_app (p s : string) : PyStr.drop (String.length p) (p ++ s) = s.
Proof. induction p as [|c p IH]; simpl; [now destruct s | exact IH]. Qed.

Example derive_https : derive_ws_url "https://host" = "wss://host/graphql".
Proof. reflexivity. Qed.

Example derive_http_slash : derive_ws_url "http://tower.local:8080/" = "ws://tower.local:8080/graphql".
Proof. reflexivity. Qed.

Example derive_suffix_kept : derive_ws_url "https://host/graphql" = "wss://host/graphql".
Proof. reflexivity. Qed.

Example test_query_url_plain : test_subscription_query_ws_url "https://host" = "wss://host/graphql".
Proof. reflexivity. Qed.

Example test_query_url_suffix :
  test_subscription_query_ws_url "https://host/graphql" = "wss://host/graphql/graphql".
Proof. reflexivity. Qed.



(** ** URL derivation and dialect vocabulary *)

Lemma append_assoc (a b c : string) : (a ++ b) ++ c = a ++ (b ++ c).
Proof.
  induction a as [|x a IH]; [reflexivity|].
  change (String x ((a ++ b) ++ c) = String x (a ++ (b ++ c))). now f_equal.
Qed.

Lemma endswith_app3 (a b suf : string) : PyStr.endswith (a ++ b ++ suf) suf = true.
Proof. rewrite <- append_assoc. apply endswith_app. Qed.

Lemma derive_ws_url_https_suffixed (host : string) :
  derive_ws_url ("https://" ++ host ++ "/graphql") = "wss://" ++ host ++ "/graphql".
Proof.
  unfold derive_ws_url.
  rewrite startswith_app, drop_app, endswith_app3. reflexivity.
Qed.

Lemma derive_ws_url_http_suffixed (host : string) :
  derive_ws_url ("http://" ++ host ++ "/graphql") = "ws://" ++ host ++ "/graphql".
Proof.
  unfold derive_ws_url.
  replace (PyStr.startswith ("http://" ++ host ++ "/graphql") "https://") with false
    by reflexivity.
  rewrite startswith_app, drop_app, endswith_app3. reflexivity.
Qed.

Lemma derive_ws_url_ends_graphql (url : string) :
  PyStr.endswith (derive_ws_url url) "/graphql" = true.
Proof.
  unfold derive_ws_url.
  match goal with
  | |- context [negb (PyStr.endswith ?w "/graphql")] =>
      destruct (PyStr.endswith w "/graphql") eqn:E; simpl
  end.
  - exact E.
  - apply endswith_app.
Qed.

Lemma string_of_list_ascii_rev_rev (s : string) :
  string_of_list_ascii (List.rev (List.rev (list_ascii_of_string s))) = s.
Proof. rewrite List.rev_involutive. apply string_of_list_ascii_of_string. Qed.

(** [rstrip] leaves a string alone that does not end in the character. *)
Lemma rstrip_no_trailing (c : ascii) (s : string) :
  PyStr.endswith s (String c EmptyString) = false -> PyStr.rstrip c s = s.
Proof.
  unfold PyStr.endswith, PyStr.rstrip. intros H.
  assert (Hl : PyStr.lstrip_chars c (List.rev (list_ascii_of_string s)) =
               List.rev (list_ascii_of_string s)).
  { destruct (List.rev (list_ascii_of_string s)) as [|a l]; [reflexivity|].
    cbn in H |- *. rewrite Ascii.eqb_sym.
    destruct (Ascii.eqb c a); [destruct l; discriminate H | reflexivity]. }
  rewrite Hl. apply string_of_list_ascii_rev_rev.
Qed.

(** Without a trailing slash the scheme is swapped and the path is appended
    unless it is already there. *)
Lemma derive_ws_url_https (rest : string) :
  PyStr.endswith ("wss://" ++ rest) "/" = false ->
  derive_ws_url ("https://" ++ rest) =
  if PyStr.endswith ("wss://" ++ rest) "/graphql"
  then "wss://" ++ rest else ("wss://" ++ rest) ++ "/graphql".
Proof.
  intros H. unfold derive_ws_url.
  rewrite startswith_app, drop_app.
  destruct (PyStr.endswith ("wss://" ++ rest) "/graphql"); simpl; [reflexivity|].
  now rewrite (rstrip_no_trailing "/" _ H).
Qed.

Lemma derive_ws_url_http (rest : string) :
  PyStr.endswith ("ws://" ++ rest) "/" = false ->
  derive_ws_url ("http://" ++ rest) =
  if PyStr.endswith ("ws://" ++ rest) "/graphql"
  then "ws://" ++ rest else ("ws://" ++ rest) ++ "/graphql".
Proof.
  intros H. unfold derive_ws_url.
  replace (PyStr.startswith ("http://" ++ rest) "https://") with false by reflexivity.
  rewrite startswith_app, drop_app.
  destruct (PyStr.endswith ("ws://" ++ rest) "/graphql"); simpl; [reflexivity|].
  now rewrite (rstrip_no_trailing "/" _ H).
Qed.



(** ** One pass of the loop *)

Section LoopFacts.

Variable cfg : settings.
Variables (name query : string) (variables : json).

Local Abbreviation loop := (subscription_loop_from cfg name query variables).

(** The pass in which the incremented counter exceeds the maximum: the state
    is recorded and the coroutine returns, whatever the script holds. *)
Lemma loop_exceeded (rd : Q) (script : list attempt_outcome) (m : manager) :
  max_reconnect_attempts m < counter name m + 1 ->
  loop rd script m =
    (Returned,
     set_connection_state name "max_retries_exceeded"
       (set_reconnect_attempts name (counter name m + 1) m),
     [EvAttempts name (counter name m + 1); EvState name "max_retries_exceeded"]).
Proof.
  intros H. apply Z.gtb_lt in H.
  destruct script; cbn; unfold counter in H; rewrite H; reflexivity.
Qed.

(** The pass at the end of the script, with attempts left. *)
Lemma loop_awaiting (rd : Q) (m : manager) :
  counter name m + 1 <= max_reconnect_attempts m ->
  loop rd [] m =
    (Awaiting, set_reconnect_attempts name (counter name m + 1) m,
     [EvAttempts name (counter name m + 1)]).
Proof.
  intros H. cbn. unfold counter in H.
  destruct (_ >? _) eqn:E; [apply Z.gtb_lt in E; lia | reflexivity].
Qed.

Variable url : string.
Hypothesis url_configured : configured (UNRAID_API_URL cfg) = Some url.

(** A pass whose connection attempt raises a retryable exception. *)
Lemma loop_connect_failure (rd : Q) (e : exn) (rest : list attempt_outcome)
    (m : manager) :
  retryable e = true ->
  counter name m + 1 <= max_reconnect_attempts m ->
  loop rd (ConnectRaises e :: rest) m =
    prepend (failure_log name url (counter name m + 1) e (next_delay rd))
      (loop (next_delay rd) rest (after_failure name e m)).
Proof.
  intros He H. cbn. unfold try_block. rewrite url_configured. cbn.
  unfold counter in *.
  destruct (_ >? _) eqn:E; [apply Z.gtb_lt in E; lia |].
  destruct e; try discriminate He; cbn;
    unfold after_failure, counter; cbn;
    destruct (subscription_loop_from _ _ _ _ _ _ _) as [[st m2] log];
    reflexivity.
Qed.

Lemma counter_after_failure (e : exn) (m : manager) :
  counter name (after_failure name e m) = counter name m + 1.
Proof. unfold counter, after_failure. cbn. now rewrite lookup_insert_eq. Qed.

Lemma max_after_failure (e : exn) (m : manager) :
  max_reconnect_attempts (after_failure name e m) = max_reconnect_attempts m.
Proof. reflexivity. Qed.

Lemma prepend_prepend {A : Type} (l1 l2 : list event) (r : A * manager * list event) :
  prepend l1 (prepend l2 r) = prepend (l1 ++ l2) r.
Proof. destruct r as [[a m] l]. cbn. now rewrite app_assoc. Qed.

Lemma prepend_nil {A : Type} (r : A * manager * list event) : prepend [] r = r.
Proof. now destruct r as [[a m] l]. Qed.

(** Consecutive passes whose connection attempts raise retryable
    exceptions, with enough attempts left for all of them. *)
Lemma loop_connect_failures (es : list exn) :
  forall (rd : Q) (rest : list attempt_outcome) (m : manager),
  forallb retryable es = true ->
  counter name m + Z.of_nat (length es) <= max_reconnect_attempts m ->
  loop rd (map ConnectRaises es ++ rest) m =
    prepend (failures_log name url (counter name m) rd es)
      (loop (Nat.iter (length es) next_delay rd) rest (after_failures name es m)).
Proof.
  induction es as [|e es IH]; intros rd rest m Hr Hc.
  - cbn. now rewrite prepend_nil.
  - cbn [forallb] in Hr. apply andb_prop in Hr as [He Hr].
    cbn [length] in Hc. cbn [map app].
    rewrite loop_connect_failure by (trivial; lia).
    rewrite IH by (trivial; rewrite counter_after_failure, max_after_failure; lia).
    rewrite prepend_prepend, counter_after_failure.
    cbn [failures_log after_failures fold_left length].
    now rewrite Nat.iter_succ_r.
Qed.

End LoopFacts.

(** ** Consecutive connection failures *)

Lemma connects_app (l1 l2 : list event) :
  connects (l1 ++ l2) = (connects l1 + connects l2)%nat.
Proof. unfold connects, connections. now rewrite omap_app, length_app. Qed.

Lemma sleeps_app (l1 l2 : list event) : sleeps (l1 ++ l2) = (sleeps l1 ++ sleeps l2)%list.
Proof. apply omap_app. Qed.

Lemma attempts_written_app (l1 l2 : list event) :
  attempts_written (l1 ++ l2) = (attempts_written l1 ++ attempts_written l2)%list.
Proof. apply omap_app. Qed.

Section Failures.

Variables (name url : string).


Lemma sleeps_failures_log (es : list exn) :
  forall (c : Z) (rd : Q),
  sleeps (failures_log name url c rd es) =
  map (fun i => Nat.iter i next_delay rd) (seq 1 (length es)).
Proof.
  induction es as [|e es IH]; intros c rd; [reflexivity|].
  cbn [failures_log length]. rewrite sleeps_app, IH.
  cbn [seq map]. rewrite <- (seq_shift (length es) 1), map_map.
  cbn [failure_log sleeps omap app Nat.iter]. f_equal.
  apply map_ext. intros i. now rewrite Nat.iter_succ_r.
Qed.





End Failures.


(** ** The backoff delay *)

Lemma Qpower_succ (a : Q) (k : nat) :
  ~ (a == 0)%Q -> (a ^ Z.of_nat (S k) == a * a ^ Z.of_nat k)%Q.
Proof.
  intros Ha. rewrite Nat2Z.inj_succ, <- Z.add_1_l, Qpower_plus by exact Ha.
  reflexivity.
Qed.

(** The closed form of the delay: [min(5 * 1.5^k, 300)]. *)
Lemma backoff_delay_closed (k : nat) :
  (backoff_delay k == Qmin (5 * (3 # 2) ^ Z.of_nat k) 300)%Q.
Proof.
  induction k as [|k IH].
  - reflexivity.
  - unfold backoff_delay in *. rewrite Nat.iter_succ.
    set (b := Nat.iter k next_delay 5%Q) in *.
    unfold next_delay, max_retry_delay.
    assert (Hp := Qpower_succ (3 # 2) k ltac:(discriminate)).
    set (p' := ((3 # 2) ^ Z.of_nat (S k))%Q) in *.
    set (p := ((3 # 2) ^ Z.of_nat k)%Q) in *.
    pose proof (Q.min_spec (5 * p) 300) as H1.
    pose proof (Q.min_spec (b * (3 # 2)) 300) as H2.
    pose proof (Q.min_spec (5 * p') 300) as H3.
    set (x1 := Qmin (5 * p) 300) in *.
    set (x2 := Qmin (b * (3 # 2)) 300) in *.
    set (x3 := Qmin (5 * p') 300) in *.
    destruct H1 as [[H1 E1]|[H1 E1]], H2 as [[H2 E2]|[H2 E2]],
      H3 as [[H3 E3]|[H3 E3]]; lra.
Qed.

Example backoff_delay_0 : backoff_delay 0 = 5%Q.
Proof. reflexivity. Qed.

Example backoff_delay_1 : backoff_delay 1 = (15 # 2)%Q.
Proof. reflexivity. Qed.

Example backoff_delay_5 : backoff_delay 5 = (1215 # 32)%Q.
Proof. reflexivity. Qed.

Example backoff_delay_20 : backoff_delay 20 = 300%Q.
Proof. reflexivity. Qed.

(** ** C5: running out of attempts *)



(** ** C3: the backoff *)

(** C3, as the code has it.  The delay starts at 5 seconds.  After each pass
    that ends in the backoff without the connection having opened, the loop
    first multiplies the delay by 1.5, capped at 300 seconds, and then sleeps
    for the new delay.  After k such consecutive passes the delay is
    min(5 * 1.5^k, 300), the i-th sleep lasted min(5 * 1.5^i, 300) seconds, and
    the sleep after the first failure lasted 7.5 seconds. *)
Theorem backoff_multiplies_then_sleeps
    (cfg : settings) (name query url : string) (variables : json)
    (es : list exn) (rest : list attempt_outcome) (m : manager) :
  configured (UNRAID_API_URL cfg) = Some url ->
  forallb retryable es = true ->
  counter name m + Z.of_nat (length es) <= max_reconnect_attempts m ->
  let k := length es in
  let log := failures_log name url (counter name m) 5 es in
  subscription_loop cfg name query variables (map ConnectRaises es ++ rest) m =
    prepend log
      (subscription_loop_from cfg name query variables (backoff_delay k) rest
         (after_failures name es m)) /\
  sleeps log = map backoff_delay (seq 1 k) /\
  Forall2 Qeq (sleeps log)
    (map (fun i => Qmin (5 * (3 # 2) ^ Z.of_nat i) 300) (seq 1 k)) /\
  (backoff_delay k == Qmin (5 * (3 # 2) ^ Z.of_nat k) 300)%Q /\
  backoff_delay 0 = 5%Q /\
  backoff_delay 1 = (15 # 2)%Q.
Proof.
  intros Hurl Hes Hc k log.
  assert (Hsl : sleeps log = map backoff_delay (seq 1 k))
    by apply sleeps_failures_log.
  split.
  { unfold subscription_loop.
    now rewrite (loop_connect_failures cfg name query variables url Hurl es). }
  split; [exact Hsl|]. split.
  { rewrite Hsl. apply Forall2_fmap, Forall_Forall2_diag, Forall_forall.
    intros i _. apply backoff_delay_closed. }
  split; [apply backoff_delay_closed|]. split; reflexivity.
Qed.

Lemma backoff_multiplies_then_sleeps_witness :
  let es := [refused; TimeoutError; refused] in
  let m := example_started None in
  let log := failures_log "logFileSubscription" "https://host"
               (counter "logFileSubscription" m) 5 es in
  subscription_loop example_settings "logFileSubscription" "q" example_variables
    (map ConnectRaises es ++ []) m =
    prepend log
      (subscription_loop_from example_settings "logFileSubscription" "q"
         example_variables (backoff_delay 3) []
         (after_failures "logFileSubscription" es m)) /\
  sleeps log = map backoff_delay (seq 1 3) /\
  Forall2 Qeq (sleeps log)
    (map (fun i => Qmin (5 * (3 # 2) ^ Z.of_nat i) 300) (seq 1 3)) /\
  (backoff_delay 3 == Qmin (5 * (3 # 2) ^ Z.of_nat 3) 300)%Q /\
  backoff_delay 0 = 5%Q /\
  backoff_delay 1 = (15 # 2)%Q.
Proof.
  apply (backoff_multiplies_then_sleeps example_settings "logFileSubscription" "q"
           "https://host" example_variables [refused; TimeoutError; refused] []
           (example_started None)).
  - reflexivity.
  - reflexivity.
  - vm_compute. discriminate.
Defined.

(** C3 as stated fails: after the first failed attempt the loop sleeps 7.5
    seconds, not the 5-second floor. *)
Lemma first_sleep_is_not_the_floor :
  sleeps (subscription_loop example_settings "logFileSubscription" "q"
            example_variables [ConnectRaises refused] (example_started None)).2 =
    [(15 # 2)%Q] /\
  ~ ((15 # 2) == 5)%Q.
Proof. split; [reflexivity | discriminate]. Qed.

(** ** C4 and C1: answers to [connection_init] that end the loop *)

(** C4.  When the answer to [connection_init] is a [connection_error] message,
    the pass records the payload in [last_error], sets the state to
    [auth_failed] and leaves [while True]: the coroutine returns after this one
    connection, without sleeping, whatever the world would have answered to
    further attempts. *)
Theorem connection_error_ends_the_loop
    (cfg : settings) (name query url : string) (variables : json)
    (o : opened) (fields : list (string * json)) (rd : Q)
    (rest : list attempt_outcome) (m : manager) :
  configured (UNRAID_API_URL cfg) = Some url ->
  counter name m + 1 <= max_reconnect_attempts m ->
  init_reply o = RecvFrame (Parsed (JObj fields)) ->
  assoc "type" fields = Some (JStr "connection_error") ->
  let '(status, m', log) :=
    subscription_loop_from cfg name query variables rd (Opens o :: rest) m in
  status = Returned /\
  connection_states m' !! name = Some "auth_failed" /\
  last_error m' !! name =
    Some (Fmt "Authentication error: " (default (JObj []) (assoc "payload" fields))) /\
  log = [EvAttempts name (counter name m + 1); EvConnect (derive_ws_url url);
         EvState name "connected"; EvAttempts name 0; EvSend (init_payload cfg);
         EvState name "auth_failed"] /\
  connects log = 1%nat /\
  sleeps log = [].
Proof.
  intros Hurl Hc Hinit Hty. cbn. unfold try_block. rewrite Hurl. cbn.
  unfold counter in *.
  destruct (_ >? _) eqn:E; [apply Z.gtb_lt in E; lia |].
  unfold session, handle_init_reply. rewrite Hinit. cbn. rewrite Hty. cbn.
  repeat split; apply lookup_insert_eq.
Qed.

Lemma connection_error_ends_the_loop_witness :
  let '(status, m', log) :=
    subscription_loop_from example_settings "logFileSubscription" "q" example_variables
      5 [Opens example_rejected; Opens example_silent] (example_started None) in
  status = Returned /\
  connection_states m' !! "logFileSubscription" = Some "auth_failed" /\
  last_error m' !! "logFileSubscription" =
    Some (Fmt "Authentication error: "
            (default (JObj [])
               (assoc "payload"
                  [("type", JStr "connection_error");
                   ("payload", JObj [("message", JStr "Unauthorized")])]))) /\
  log = [EvAttempts "logFileSubscription"
           (counter "logFileSubscription" (example_started None) + 1);
         EvConnect (derive_ws_url "https://host");
         EvState "logFileSubscription" "connected";
         EvAttempts "logFileSubscription" 0; EvSend (init_payload example_settings);
         EvState "logFileSubscription" "auth_failed"] /\
  connects log = 1%nat /\
  sleeps log = [].
Proof.
  apply (connection_error_ends_the_loop example_settings "logFileSubscription" "q"
           "https://host" example_variables example_rejected
           [("type", JStr "connection_error");
            ("payload", JObj [("message", JStr "Unauthorized")])]
           5 [Opens example_silent] (example_started None)).
  - reflexivity.
  - vm_compute. discriminate.
  - reflexivity.
  - reflexivity.
Defined.




(** ** C6: data messages and the cache *)

(** C6, as the code has it.  A message of the dialect's data type whose id is
    the subscription name and whose payload is an object with a data field that
    is true in Python's sense (not null, false, zero or empty) replaces the
    cache entry of the name by a new [SubscriptionData] holding exactly that
    data field and the current time, whatever the entry was before; nothing
    else in the manager changes, the receive loop goes on, and
    [get_resource_data] then returns the new data. *)
Theorem data_message_replaces_cache_entry
    (name selected_proto : string) (now : Z)
    (fields payload : list (string * json)) (d : json) (m : manager) :
  assoc "type" fields = Some (JStr (expected_data_type selected_proto)) ->
  assoc "id" fields = Some (JStr name) ->
  assoc "payload" fields = Some (JObj payload) ->
  assoc "data" payload = Some d ->
  truthy d = true ->
  let '(stop, m', log) :=
    handle_message name selected_proto
      {| at_time := now; content := Parsed (JObj fields) |} m in
  stop = false /\
  m' = set_resource_data name
         {| data := d; last_updated := now; subscription_type := name |} m /\
  resource_data m' !! name =
    Some {| data := d; last_updated := now; subscription_type := name |} /\
  get_resource_data name m' = Some d /\
  log = [].
Proof.
  intros Hty Hid Hp Hd Ht.
  unfold handle_message, dispatch. cbn. rewrite Hty, Hid. cbn.
  rewrite !String.eqb_refl. cbn. rewrite Hp. cbn. rewrite Hd. cbn. rewrite Ht. cbn.
  unfold get_resource_data. cbn. rewrite lookup_insert_eq. repeat split.
Qed.

Lemma data_message_replaces_cache_entry_witness :
  let '(stop, m', log) :=
    handle_message "S" "graphql-transport-ws"
      {| at_time := 250; content := Parsed (next_message (JObj [("y", JInt 2)])) |}
      example_cached in
  stop = false /\
  m' = set_resource_data "S"
         {| data := JObj [("y", JInt 2)]; last_updated := 250; subscription_type := "S" |}
         example_cached /\
  resource_data m' !! "S" =
    Some {| data := JObj [("y", JInt 2)]; last_updated := 250; subscription_type := "S" |} /\
  get_resource_data "S" m' = Some (JObj [("y", JInt 2)]) /\
  log = [].
Proof.
  apply (data_message_replaces_cache_entry "S" "graphql-transport-ws" 250
           [("type", JStr "next"); ("id", JStr "S");
            ("payload", JObj [("data", JObj [("y", JInt 2)])])]
           [("data", JObj [("y", JInt 2)])] (JObj [("y", JInt 2)]) example_cached);
    reflexivity.
Defined.

(** C6 as stated fails: the payload of this [next] message has a data field,
    the empty object, and the cache keeps the earlier payload. *)
Lemma empty_data_is_not_cached :
  let msg := next_message (JObj []) in
  let m' := (handle_message "S" "graphql-transport-ws"
               {| at_time := 250; content := Parsed msg |} example_cached).1.2 in
  py_get msg "payload" JNull = Ok (JObj [("data", JObj [])]) /\
  get_resource_data "S" m' = Some (JObj [("x", JInt 1)]) /\
  get_resource_data "S" m' <> Some (JObj []) /\
  m' = example_cached.
Proof. repeat split. discriminate. Qed.

(** ** Quiet computations *)

Lemma quiet_ret {A : Type} (a : A) : quiet (ret a).
Proof. intros m. cbn. auto. Qed.

Lemma quiet_bind {A B : Type} (c : M A) (k : A -> M B) :
  quiet c -> (forall a, quiet (k a)) -> quiet (bind c k).
Proof.
  intros Hc Hk m. unfold bind.
  specialize (Hc m). destruct (c m) as [[a m1] log1].
  specialize (Hk a m1). destruct (k a m1) as [[b m2] log2].
  cbn in *. destruct Hc as (? & ? & ?), Hk as (? & ? & ?).
  repeat split; [now apply Forall_app | congruence | congruence].
Qed.

Lemma quiet_send (msg : json) : quiet (emit (EvSend msg)).
Proof. intros m. cbn. repeat split. repeat constructor. Qed.

Lemma quiet_write_state (name s : string) :
  s <> "max_retries_exceeded" -> quiet (write_state name s).
Proof. intros Hs m. cbn. repeat split. repeat constructor. exact Hs. Qed.

Lemma quiet_write_error (name : string) (t : text) : quiet (write_error name t).
Proof. intros m. cbn. auto. Qed.

Lemma quiet_write_data (name : string) (d : SubscriptionData) : quiet (write_data name d).
Proof. intros m. cbn. auto. Qed.

Ltac quiet_step :=
  first
    [ apply quiet_ret
    | apply quiet_send
    | apply quiet_write_error
    | apply quiet_write_data
    | apply quiet_write_state; discriminate
    | apply quiet_bind; [|intros ?] ].

Ltac quiet_cases :=
  repeat
    (repeat quiet_step;
     try match goal with
         | |- quiet (match ?x with _ => _ end) => destruct x
         end).

Lemma quiet_dispatch (name selected_proto : string) (now : Z) (data : json) :
  quiet (dispatch name selected_proto now data).
Proof. unfold dispatch. quiet_cases. Qed.

Lemma quiet_handle_message (name selected_proto : string) (a : arrival) :
  quiet (handle_message name selected_proto a).
Proof.
  unfold handle_message. destruct (content a); [apply quiet_ret|].
  apply quiet_bind; [apply quiet_dispatch|]. intros []; apply quiet_ret.
Qed.

Lemma quiet_receive_loop (name selected_proto : string) (fin : stream_end)
    (msgs : list arrival) :
  quiet (receive_loop name selected_proto msgs fin).
Proof.
  induction msgs as [|a msgs IH]; cbn [receive_loop].
  - destruct fin; apply quiet_ret.
  - apply quiet_bind; [apply quiet_handle_message|].
    intros []; [apply quiet_ret | exact IH].
Qed.

Lemma quiet_handle_exception (name : string) (e : exn) :
  quiet (handle_exception name e).
Proof. unfold handle_exception. quiet_cases. Qed.

(** The receive loop raises only what the stream raises. *)
Lemma receive_loop_result (name selected_proto : string) (fin : stream_end)
    (msgs : list arrival) (m : manager) :
  (receive_loop name selected_proto msgs fin m).1.1 = Ok tt \/
  exists e, fin = StreamRaises e /\
            (receive_loop name selected_proto msgs fin m).1.1 = Raise e.
Proof.
  revert m. induction msgs as [|a msgs IH]; intros m; cbn [receive_loop].
  - destruct fin; cbn; eauto.
  - unfold bind. destruct (handle_message _ _ _ m) as [[stop m1] log1].
    destruct stop; cbn.
    + now left.
    + specialize (IH m1). destruct (receive_loop _ _ _ _ m1) as [[r m2] log2].
      exact IH.
Qed.

(** ** Passes in which the connection opens *)

Section OpenedPass.

Variable cfg : settings.
Variables (name query url : string) (variables : json).
Hypothesis url_configured : configured (UNRAID_API_URL cfg) = Some url.

Local Abbreviation loop := (subscription_loop_from cfg name query variables).

Lemma quiet_subscribe_and_listen (proto : string) (o : opened) :
  quiet (subscribe_and_listen name proto query variables o).
Proof.
  unfold subscribe_and_listen. repeat quiet_step.
  - apply quiet_receive_loop.
  - destruct a1; apply quiet_ret.
Qed.

Lemma subscribe_and_listen_backs_off (proto : string) (o : opened) (m : manager) :
  stream_retryable (ending o) = true ->
  backs_off (subscribe_and_listen name proto query variables o m).1.1 = true.
Proof.
  intros Hfin. unfold subscribe_and_listen. cbn. unfold bind.
  match goal with
  | |- context [receive_loop ?n ?p ?ms ?fin ?m0] =>
      destruct (receive_loop_result n p fin ms m0) as [H|(e & He & H)];
      destruct (receive_loop n p ms fin m0) as [[r m1] log1]
  end; cbn in *; subst r; cbn; [reflexivity|].
  rewrite He in Hfin. exact Hfin.
Qed.

Lemma quiet_handle_init_reply (proto : string) (o : opened) :
  quiet (handle_init_reply name proto query variables o).
Proof.
  unfold handle_init_reply.
  repeat
    (repeat first [apply quiet_subscribe_and_listen | quiet_step];
     try match goal with
         | |- quiet (match ?x with _ => _ end) => destruct x
         end).
Qed.

Lemma handle_init_reply_backs_off (proto : string) (o : opened) (m : manager) :
  ends_in_backoff o = true ->
  backs_off (handle_init_reply name proto query variables o m).1.1 = true.
Proof.
  unfold ends_in_backoff, handle_init_reply.
  destruct (init_reply o) as [e|[raw err|init_data]];
    cbn -[subscribe_and_listen]; try easy.
  destruct init_data; cbn -[subscribe_and_listen]; try easy.
  match goal with |- context [str_eq ?v "connection_ack"] => set (ty := v) end.
  destruct (str_eq ty "connection_ack").
  - intros H. cbn -[subscribe_and_listen].
    pose proof (subscribe_and_listen_backs_off proto o
                  (set_connection_state name "authenticated" m) H) as Hb.
    destruct (subscribe_and_listen _ _ _ _ _ _) as [[r m1] log1]. exact Hb.
  - destruct (str_eq ty "connection_error"); [easy|].
    apply subscribe_and_listen_backs_off.
Qed.

(** A pass in which the connection opens and which ends in the backoff:
    the counter is back at 0 and the delay back at 5 seconds before the
    backoff multiplies it. *)
Lemma loop_opened_pass (rd : Q) (o : opened) (rest : list attempt_outcome)
    (m : manager) :
  counter name m + 1 <= max_reconnect_attempts m ->
  ends_in_backoff o = true ->
  exists (m1 : manager) (mid : list event),
    loop rd (Opens o :: rest) m =
      prepend
        ([EvAttempts name (counter name m + 1); EvConnect (derive_ws_url url);
          EvState name "connected"; EvAttempts name 0] ++ mid ++
         [EvState name "reconnecting"; EvSleep (next_delay 5)])
        (loop (next_delay 5) rest m1) /\
    Forall quiet_event mid /\
    counter name m1 = 0 /\
    max_reconnect_attempts m1 = max_reconnect_attempts m /\
    connection_states m1 !! name = Some "reconnecting".
Proof.
  intros Hc Hb. cbn -[session]. unfold try_block. rewrite url_configured.
  cbn -[session]. unfold counter in *.
  destruct (_ >? _) eqn:E; [apply Z.gtb_lt in E; lia |].
  unfold session. cbn -[handle_init_reply].
  unfold bind, emit, write_state, write_attempts, ret.
  match goal with
  | |- context [handle_init_reply ?a ?b ?c ?d ?e ?m0] =>
      pose proof (quiet_handle_init_reply b e m0) as (Hq & Hra & Hmax);
      pose proof (handle_init_reply_backs_off b e m0 Hb) as Hbo;
      destruct (handle_init_reply a b c d e m0) as [[r m1] log1]
  end.
  cbn in Hq, Hra, Hmax, Hbo.
  assert (Hsend : Forall quiet_event (EvSend (init_payload cfg) :: log1))
    by (constructor; [exact I | exact Hq]).
  destruct r as [[|]|e]; try discriminate Hbo.
  - exists (set_connection_state name "reconnecting" m1),
      (EvSend (init_payload cfg) :: log1).
    cbn. destruct (subscription_loop_from _ _ _ _ _ _ _) as [[st m2] log2].
    cbn. rewrite app_nil_r, <- app_assoc.
    repeat split; try assumption.
    + rewrite Hra. now rewrite lookup_insert_eq.
    + apply lookup_insert_eq.
  - exists (set_connection_state name "reconnecting"
              (set_connection_state name (failure_state e)
                 (set_last_error name (failure_text e) m1))),
      (EvSend (init_payload cfg) :: log1 ++ [EvState name (failure_state e)]).
    destruct e; try discriminate Hbo; cbn;
      destruct (subscription_loop_from _ _ _ _ _ _ _) as [[st m2] log2];
      cbn; rewrite <- !app_assoc; cbn;
      (repeat split;
       [ constructor; [exact I|];
         apply Forall_app; split; [exact Hq|];
         repeat constructor; discriminate
       | rewrite Hra; now rewrite lookup_insert_eq
       | assumption
       | apply lookup_insert_eq ]).
Qed.

End OpenedPass.

(** ** C9: the counter is reset as soon as the connection opens *)

Lemma prepend_fst {A : Type} (l : list event) (r : A * manager * list event) :
  (prepend l r).1 = r.1.
Proof. now destruct r as [[a m] log]. Qed.

Lemma prepend_snd {A : Type} (l : list event) (r : A * manager * list event) :
  (prepend l r).2 = (l ++ r.2)%list.
Proof. now destruct r as [[a m] log]. Qed.

Lemma states_written_app (l1 l2 : list event) :
  states_written (l1 ++ l2) = (states_written l1 ++ states_written l2)%list.
Proof. apply omap_app. Qed.

Lemma quiet_log_projections (log : list event) :
  Forall quiet_event log ->
  attempts_written log = [] /\ connections log = [] /\ sleeps log = [] /\
  Forall (fun s => s <> "max_retries_exceeded") (states_written log).
Proof.
  induction 1 as [|e log He _ (IH1 & IH2 & IH3 & IH4)]; [now repeat split|].
  destruct e; cbn in He; try contradiction; cbn;
    repeat split; try assumption.
  now constructor.
Qed.

Section OpenedFailures.

Variable cfg : settings.
Variables (name query url : string) (variables : json).
Hypothesis url_configured : configured (UNRAID_API_URL cfg) = Some url.

Lemma loop_opened_failures (os : list opened) :
  forall (rd : Q) (m : manager),
  Forall (fun o => ends_in_backoff o = true) os ->
  counter name m = 0 ->
  1 <= max_reconnect_attempts m ->
  connection_states m !! name <> Some "max_retries_exceeded" ->
  let r := subscription_loop_from cfg name query variables rd (map Opens os) m in
  r.1.1 = Awaiting /\
  connects r.2 = length os /\
  Forall (fun n => n <= 1) (attempts_written r.2) /\
  Forall (fun s => s <> "max_retries_exceeded") (states_written r.2) /\
  sleeps r.2 = repeat (15 # 2)%Q (length os) /\
  counter name r.1.2 = 1 /\
  connection_states r.1.2 !! name <> Some "max_retries_exceeded".
Proof.
  induction os as [|o os IH]; intros rd m Hos Hc Hmax Hst r; subst r.
  - cbn [map]. rewrite loop_awaiting by lia. rewrite Hc. cbn.
    repeat split; try assumption.
    + constructor; [lia | constructor].
    + constructor.
    + unfold counter. cbn. now rewrite lookup_insert_eq.
  - apply Forall_cons in Hos as [Ho Hos]. cbn [map].
    destruct (loop_opened_pass cfg name query url variables url_configured
                rd o (map Opens os) m ltac:(lia) Ho)
      as (m1 & mid & Heq & Hq & Hc1 & Hmax1 & Hst1).
    rewrite Heq.
    specialize (IH (next_delay 5) m1 Hos Hc1 ltac:(lia)
                  ltac:(rewrite Hst1; discriminate)).
    cbn zeta in IH. destruct IH as (I1 & I2 & I3 & I4 & I5 & I6 & I7).
    apply quiet_log_projections in Hq as (Q1 & Q2 & Q3 & Q4).
    rewrite prepend_fst, prepend_snd.
    repeat split; try assumption.
    + assert (Hcm : connects mid = 0%nat) by (unfold connects; now rewrite Q2).
      rewrite !connects_app, Hcm, I2. cbn [length]. cbn. lia.
    + rewrite !attempts_written_app, Q1, !Forall_app. cbn. rewrite Hc.
      repeat split; try exact I3; repeat constructor; lia.
    + rewrite !states_written_app, !Forall_app. cbn.
      repeat split; try exact I4; try exact Q4; repeat constructor; discriminate.
    + rewrite !sleeps_app, Q3. cbn. now rewrite I5.
Qed.

End OpenedFailures.

(** C9.  The counter is set to 0 as soon as the connection is open, before
    the answer to [connection_init] is awaited.  Take a subscription just
    started, whose counter is 0, with a maximum of at least 1.  In every run
    in which each attempt opens the connection and then ends in the backoff
    (such as a time-out while waiting for the acknowledgement), whatever the
    number of attempts: every attempt is made and the coroutine is still
    running, the counter never holds more than 1, the state
    [max_retries_exceeded] is never written, and every sleep lasts 7.5
    seconds. *)
Theorem opened_connections_never_exhaust_attempts
    (cfg : settings) (name query url : string) (variables : json)
    (os : list opened) (m : manager) :
  configured (UNRAID_API_URL cfg) = Some url ->
  Forall (fun o => ends_in_backoff o = true) os ->
  counter name m = 0 ->
  1 <= max_reconnect_attempts m ->
  connection_states m !! name <> Some "max_retries_exceeded" ->
  let '(status, m', log) :=
    subscription_loop cfg name query variables (map Opens os) m in
  status = Awaiting /\
  connects log = length os /\
  Forall (fun n => n <= 1) (attempts_written log) /\
  Forall (fun s => s <> "max_retries_exceeded") (states_written log) /\
  sleeps log = repeat (15 # 2)%Q (length os) /\
  counter name m' = 1 /\
  connection_states m' !! name <> Some "max_retries_exceeded".
Proof.
  intros Hurl Hos Hc Hmax Hst.
  pose proof (loop_opened_failures cfg name query url variables Hurl os 5 m
                Hos Hc Hmax Hst) as H.
  unfold subscription_loop.
  destruct (subscription_loop_from _ _ _ _ _ _ _) as [[status m'] log].
  exact H.
Qed.

Lemma opened_connections_never_exhaust_attempts_witness :
  let '(status, m', log) :=
    subscription_loop example_settings "logFileSubscription" "q" example_variables
      (map Opens (repeat example_ack_timeout 12 ++ [example_silent]))
      (example_started (Some 1)) in
  status = Awaiting /\
  connects log = length (repeat example_ack_timeout 12 ++ [example_silent]) /\
  Forall (fun n => n <= 1) (attempts_written log) /\
  Forall (fun s => s <> "max_retries_exceeded") (states_written log) /\
  sleeps log =
    repeat (15 # 2)%Q (length (repeat example_ack_timeout 12 ++ [example_silent])) /\
  counter "logFileSubscription" m' = 1 /\
  connection_states m' !! "logFileSubscription" <> Some "max_retries_exceeded".
Proof.
  apply (opened_connections_never_exhaust_attempts example_settings
           "logFileSubscription" "q" "https://host" example_variables
           (repeat example_ack_timeout 12 ++ [example_silent])
           (example_started (Some 1))).
  - reflexivity.
  - repeat constructor.
  - reflexivity.
  - vm_compute. discriminate.
  - vm_compute. discriminate.
Defined.

(** ** Starting and stopping *)


Lemma filter_none (f : task -> bool) (l : list task) :
  (forall i a, l !! i = Some a -> f a = false) -> List.filter f l = [].
Proof.
  induction l as [|a l IH]; intros H; cbn; [reflexivity|].
  rewrite (H 0%nat a eq_refl). apply IH. intros i x Hi. exact (H (S i) x Hi).
Qed.

Lemma is_running_true (name : string) (t : task) :
  is_running name t = true <-> task_name t = name /\ task_status t = TaskRunning.
Proof.
  unfold is_running. rewrite andb_true_iff, String.eqb_eq.
  destruct (task_status t); intuition discriminate.
Qed.


Lemma running_tasks_inactive (s : system) (name : string) :
  registered_tasks s ->
  active_subscriptions (mgr s) !! name = None ->
  running_tasks name s = 0%nat.
Proof.
  intros [Hrun _] Hn. unfold running_tasks. rewrite filter_none; [reflexivity|].
  intros i a Hi. destruct (is_running name a) eqn:F; [|reflexivity].
  apply is_running_true in F as [Na Sa].
  pose proof (Hrun i a Hi Sa) as Ha. rewrite Na in Ha. congruence.
Qed.

Lemma cancel_not_running (t : task) : task_status (cancel t) <> TaskRunning.
Proof. unfold cancel. destruct (task_status t) eqn:E; cbn; congruence. Qed.

Lemma cancel_name (t : task) : task_name (cancel t) = task_name t.
Proof. unfold cancel. now destruct (task_status t). Qed.

Lemma finish_not_running (t : task) : task_status (finish t) <> TaskRunning.
Proof. unfold finish. destruct (task_status t) eqn:E; cbn; congruence. Qed.

Lemma finish_name (t : task) : task_name (finish t) = task_name t.
Proof. unfold finish. now destruct (task_status t). Qed.

Lemma registered_init (m0 : manager) :
  active_subscriptions m0 = ∅ -> registered_tasks (initial_system m0).
Proof.
  intros H0. split; cbn.
  - intros i t Hi. discriminate Hi.
  - intros n i Hn. rewrite H0, lookup_empty in Hn. discriminate Hn.
Qed.

Lemma registered_start (name query : string) (variables : option json) (s : system) :
  registered_tasks s -> registered_tasks (start_subscription name query variables s).
Proof.
  intros [Hrun Hreg]. unfold start_subscription.
  destruct (decide _) as [Hact|Hact]; [now split|].
  assert (Hn : active_subscriptions (mgr s) !! name = None).
  { destruct (active_subscriptions (mgr s) !! name) eqn:E; [|reflexivity].
    exfalso. apply Hact. eauto. }
  split; cbn.
  - intros i t Hi St. apply lookup_app_Some in Hi as [Hi|[Hle Hi]].
    + pose proof (Hrun i t Hi St) as Ht.
      rewrite lookup_insert_ne; [exact Ht|]. intros ->. congruence.
    + apply list_lookup_singleton_Some in Hi as [Hi <-]. cbn.
      rewrite lookup_insert_eq. f_equal. lia.
  - intros n i Hi. destruct (decide (name = n)) as [->|Hne].
    + rewrite lookup_insert_eq in Hi. injection Hi as <-.
      eexists. split; [now apply list_lookup_middle | reflexivity].
    + rewrite lookup_insert_ne in Hi by exact Hne.
      destruct (Hreg n i Hi) as (t & Ht & Hname).
      exists t. split; [|exact Hname]. now apply lookup_app_l_Some.
Qed.

Lemma registered_stop (name : string) (s : system) :
  registered_tasks s -> registered_tasks (stop_subscription name s).
Proof.
  intros [Hrun Hreg]. unfold stop_subscription.
  destruct (active_subscriptions (mgr s) !! name) as [t0|] eqn:Hn; [|now split].
  split; cbn.
  - intros i t Hi St. destruct (decide (t0 = i)) as [->|Hne].
    + rewrite list_lookup_alter_eq in Hi.
      destruct (tasks s !! i) as [t'|]; [|discriminate Hi].
      injection Hi as <-. now apply cancel_not_running in St.
    + rewrite list_lookup_alter_ne in Hi by exact Hne.
      pose proof (Hrun i t Hi St) as Ht.
      rewrite lookup_delete_ne; [exact Ht|]. intros ->. congruence.
  - intros n i Hi. destruct (decide (name = n)) as [->|Hne].
    + rewrite lookup_delete_eq in Hi. discriminate Hi.
    + rewrite lookup_delete_ne in Hi by exact Hne.
      destruct (Hreg n i Hi) as (t & Ht & Hname).
      destruct (decide (t0 = i)) as [->|Hti].
      * exists (cancel t). rewrite list_lookup_alter_eq, Ht, cancel_name. now split.
      * exists t. now rewrite list_lookup_alter_ne by exact Hti.
Qed.

Lemma registered_step (s s' : system) :
  step s s' -> registered_tasks s -> registered_tasks s'.
Proof.
  intros Hstep Hs. destruct Hstep as [name query variables s|name s|t0 s|m' s Hact].
  - now apply registered_start.
  - now apply registered_stop.
  - destruct Hs as [Hrun Hreg]. split; cbn.
    + intros i t Hi St. destruct (decide (t0 = i)) as [->|Hne].
      * rewrite list_lookup_alter_eq in Hi.
        destruct (tasks s !! i) as [t'|]; [|discriminate Hi].
        injection Hi as <-. now apply finish_not_running in St.
      * rewrite list_lookup_alter_ne in Hi by exact Hne. now apply Hrun.
    + intros n i Hi. destruct (Hreg n i Hi) as (t & Ht & Hname).
      destruct (decide (t0 = i)) as [->|Hti].
      * exists (finish t). rewrite list_lookup_alter_eq, Ht, finish_name. now split.
      * exists t. now rewrite list_lookup_alter_ne by exact Hti.
  - destruct Hs as [Hrun Hreg]. split; cbn; rewrite Hact; assumption.
Qed.

Lemma registered_reachable (m0 : manager) (s : system) :
  active_subscriptions m0 = ∅ -> reachable m0 s -> registered_tasks s.
Proof.
  intros H0 Hr. induction Hr as [|s s' _ IH Hstep].
  - now apply registered_init.
  - now apply (registered_step s s').
Qed.

Lemma start_active (name query : string) (variables : option json) (s : system) :
  is_Some (active_subscriptions (mgr s) !! name) ->
  start_subscription name query variables s = s.
Proof. intros H. unfold start_subscription. now destruct (decide _). Qed.

Lemma start_registers (name query : string) (variables : option json) (s : system) :
  is_Some (active_subscriptions (mgr (start_subscription name query variables s)) !! name).
Proof.
  unfold start_subscription. destruct (decide _) as [H|H]; [exact H|].
  cbn. rewrite lookup_insert_eq. eauto.
Qed.



(** ** C7: stopping *)




(** ** C8: the derived URL and the vocabulary of the dialects *)

Lemma derive_ws_url_scheme_https (rest : string) :
  derive_ws_url ("https://" ++ rest) = derive_ws_url ("wss://" ++ rest).
Proof.
  unfold derive_ws_url. rewrite startswith_app, drop_app.
  replace (PyStr.startswith ("wss://" ++ rest) "https://") with false by reflexivity.
  replace (PyStr.startswith ("wss://" ++ rest) "http://") with false by reflexivity.
  reflexivity.
Qed.

Lemma derive_ws_url_scheme_http (rest : string) :
  derive_ws_url ("http://" ++ rest) = derive_ws_url ("ws://" ++ rest).
Proof.
  unfold derive_ws_url.
  replace (PyStr.startswith ("http://" ++ rest) "https://") with false by reflexivity.
  rewrite startswith_app, drop_app.
  replace (PyStr.startswith ("ws://" ++ rest) "https://") with false by reflexivity.
  replace (PyStr.startswith ("ws://" ++ rest) "http://") with false by reflexivity.
  reflexivity.
Qed.

(** C8.  For the base URL [https://host] the loop connects to
    [wss://host/graphql].  In general [https://] is replaced by [wss://] and
    [http://] by [ws://], the result always ends in [/graphql], and a URL that
    ends in [/graphql] already gets nothing appended.  When the server selects
    [graphql-transport-ws] the subscribe message has type [subscribe] and the
    receive loop takes [next] messages as data; with the legacy dialect the
    types are [start] and [data]. *)
Theorem ws_url_and_dialect_vocabulary :
  derive_ws_url "https://host" = "wss://host/graphql" /\
  (forall rest, derive_ws_url ("https://" ++ rest) = derive_ws_url ("wss://" ++ rest)) /\
  (forall rest, derive_ws_url ("http://" ++ rest) = derive_ws_url ("ws://" ++ rest)) /\
  (forall url, PyStr.endswith (derive_ws_url url) "/graphql" = true) /\
  (forall host, derive_ws_url ("https://" ++ host ++ "/graphql") =
                "wss://" ++ host ++ "/graphql") /\
  (forall host, derive_ws_url ("http://" ++ host ++ "/graphql") =
                "ws://" ++ host ++ "/graphql") /\
  start_type "graphql-transport-ws" = "subscribe" /\
  expected_data_type "graphql-transport-ws" = "next" /\
  start_type "graphql-ws" = "start" /\
  expected_data_type "graphql-ws" = "data" /\
  (let '(_, m', log) :=
     example_run "graphql-transport-ws" [next_message (JObj [("x", JInt 1)])] in
   connections log = ["wss://host/graphql"] /\
   sent log = [init_payload example_settings;
               JObj [("id", JStr "S"); ("type", JStr "subscribe");
                     ("payload", JObj [("query", JStr "subscription { x }");
                                       ("variables", JObj [])])]] /\
   get_resource_data "S" m' = Some (JObj [("x", JInt 1)])) /\
  (let '(_, m', log) :=
     example_run "graphql-transport-ws" [data_message (JObj [("x", JInt 1)])] in
   get_resource_data "S" m' = None) /\
  (let '(_, m', log) :=
     example_run "graphql-ws" [data_message (JObj [("x", JInt 1)])] in
   connections log = ["wss://host/graphql"] /\
   sent log = [init_payload example_settings;
               JObj [("id", JStr "S"); ("type", JStr "start");
                     ("payload", JObj [("query", JStr "subscription { x }");
                                       ("variables", JObj [])])]] /\
   get_resource_data "S" m' = Some (JObj [("x", JInt 1)])) /\
  (let '(_, m', log) :=
     example_run "graphql-ws" [next_message (JObj [("x", JInt 1)])] in
   get_resource_data "S" m' = None).
Proof.
  split; [reflexivity|].
  split; [exact derive_ws_url_scheme_https|].
  split; [exact derive_ws_url_scheme_http|].
  split; [exact derive_ws_url_ends_graphql|].
  split; [exact derive_ws_url_https_suffixed|].
  split; [exact derive_ws_url_http_suffixed|].
  do 4 (split; [reflexivity|]).
  split; [vm_compute; repeat split|].
  split; [vm_compute; reflexivity|].
  split; [vm_compute; repeat split|].
  vm_compute; reflexivity.
Qed.

(** ** C10: the URL of [test_subscription_query] *)

(** C10 fails on the code.  For a base URL that already ends in [/graphql],
    or in a slash, [test_subscription_query] connects to another URL than the
    subscription loop; for [https://host] the two agree. *)
Theorem test_subscription_query_url_differs :
  test_subscription_query_ws_url "https://host/graphql" = "wss://host/graphql/graphql" /\
  derive_ws_url "https://host/graphql" = "wss://host/graphql" /\
  test_subscription_query_ws_url "https://host/graphql" <>
    derive_ws_url "https://host/graphql" /\
  test_subscription_query_ws_url "https://host/" = "wss://host//graphql" /\
  derive_ws_url "https://host/" = "wss://host/graphql" /\
  test_subscription_query_ws_url "https://host/" <> derive_ws_url "https://host/" /\
  test_subscription_query_ws_url "https://host" = derive_ws_url "https://host".
Proof.
  split; [reflexivity|]. split; [reflexivity|]. split; [vm_compute; discriminate|].
  split; [reflexivity|]. split; [reflexivity|]. split; [vm_compute; discriminate|].
  reflexivity.
Qed.

(** * Further properties of the engine *)

(** ** Message dispatch *)

Lemma expected_data_type_cases (selected_proto : string) :
  expected_data_type selected_proto = "next" \/ expected_data_type selected_proto = "data".
Proof. unfold expected_data_type. destruct (String.eqb _ _); auto. Qed.

(** X1.  A [ping] message is answered by exactly one [pong]; the manager is
    left as it is and the receive loop goes on. *)
Theorem ping_is_answered_by_one_pong
    (name selected_proto : string) (now : Z)
    (fields : list (string * json)) (m : manager) :
  assoc "type" fields = Some (JStr "ping") ->
  handle_message name selected_proto
    {| at_time := now; content := Parsed (JObj fields) |} m =
  (false, m, [EvSend (JObj [("type", JStr "pong")])]).
Proof.
  intros Hty. unfold handle_message, dispatch. cbn. rewrite Hty. cbn.
  destruct (expected_data_type_cases selected_proto) as [-> | ->]; reflexivity.
Qed.

Lemma ping_is_answered_by_one_pong_witness :
  handle_message "S" "graphql-transport-ws"
    {| at_time := 250; content := Parsed (JObj [("type", JStr "ping")]) |}
    example_cached =
  (false, example_cached, [EvSend (JObj [("type", JStr "pong")])]).
Proof.
  apply (ping_is_answered_by_one_pong "S" "graphql-transport-ws" 250
           [("type", JStr "ping")] example_cached).
  reflexivity.
Defined.

(** X2.  A frame that is not valid JSON, and a frame whose JSON value is not
    an object, are skipped: nothing is written, nothing is sent and the receive
    loop goes on. *)
Theorem undecodable_frame_is_skipped
    (name selected_proto : string) (a : arrival) (m : manager) :
  match content a with
  | Malformed _ _ => True
  | Parsed (JObj _) => False
  | Parsed _ => True
  end ->
  handle_message name selected_proto a m = (false, m, []).
Proof.
  unfold handle_message. destruct (content a) as [raw err|v]; [reflexivity|].
  destruct v; intros H; try contradiction; reflexivity.
Qed.

Lemma undecodable_frame_is_skipped_witness :
  handle_message "S" "graphql-ws"
    {| at_time := 250; content := Parsed (JArr [JStr "next"]) |} example_cached =
  (false, example_cached, []).
Proof.
  apply (undecodable_frame_is_skipped "S" "graphql-ws"
           {| at_time := 250; content := Parsed (JArr [JStr "next"]) |} example_cached).
  exact I.
Defined.

(** X3.  A data message for the subscription whose payload has no true data
    field but a true errors field records the errors as last error; the cache,
    the states and the counters are untouched and the receive loop goes on. *)
Theorem graphql_errors_are_recorded
    (name selected_proto : string) (now : Z)
    (fields payload : list (string * json)) (errors : json) (m : manager) :
  assoc "type" fields = Some (JStr (expected_data_type selected_proto)) ->
  assoc "id" fields = Some (JStr name) ->
  assoc "payload" fields = Some (JObj payload) ->
  truthy (default JNull (assoc "data" payload)) = false ->
  assoc "errors" payload = Some errors ->
  truthy errors = true ->
  handle_message name selected_proto
    {| at_time := now; content := Parsed (JObj fields) |} m =
  (false, set_last_error name (Fmt "GraphQL errors: " errors) m, []).
Proof.
  intros Hty Hid Hp Hd He Ht.
  unfold handle_message, dispatch. cbn. rewrite Hty, Hid. cbn.
  rewrite !String.eqb_refl. cbn. rewrite Hp. cbn. rewrite Hd, He. cbn. rewrite Ht.
  reflexivity.
Qed.

Lemma graphql_errors_are_recorded_witness :
  handle_message "S" "graphql-transport-ws"
    {| at_time := 250;
       content :=
         Parsed (JObj [("type", JStr "next"); ("id", JStr "S");
                       ("payload",
                         JObj [("data", JNull);
                               ("errors", JArr [JStr "Cannot query field"])])]) |}
    example_cached =
  (false,
   set_last_error "S" (Fmt "GraphQL errors: " (JArr [JStr "Cannot query field"]))
     example_cached,
   []).
Proof.
  apply (graphql_errors_are_recorded "S" "graphql-transport-ws" 250
           [("type", JStr "next"); ("id", JStr "S");
            ("payload",
              JObj [("data", JNull); ("errors", JArr [JStr "Cannot query field"])])]
           [("data", JNull); ("errors", JArr [JStr "Cannot query field"])]
           (JArr [JStr "Cannot query field"]) example_cached);
    reflexivity.
Defined.

(** X4.  An [error] message records its payload as last error and sets the
    state to [error]; the receive loop goes on and the cache is untouched. *)
Theorem error_message_is_recorded
    (name selected_proto : string) (now : Z)
    (fields : list (string * json)) (m : manager) :
  assoc "type" fields = Some (JStr "error") ->
  handle_message name selected_proto
    {| at_time := now; content := Parsed (JObj fields) |} m =
  (false,
   set_connection_state name "error"
     (set_last_error name
        (Fmt "Subscription error: " (default (JObj []) (assoc "payload" fields))) m),
   [EvState name "error"]).
Proof.
  intros Hty. unfold handle_message, dispatch. cbn. rewrite Hty. cbn.
  destruct (expected_data_type_cases selected_proto) as [-> | ->]; reflexivity.
Qed.

Lemma error_message_is_recorded_witness :
  handle_message "S" "graphql-ws"
    {| at_time := 250;
       content := Parsed (JObj [("type", JStr "error"); ("payload", JStr "boom")]) |}
    example_cached =
  (false,
   set_connection_state "S" "error"
     (set_last_error "S"
        (Fmt "Subscription error: "
           (default (JObj [])
              (assoc "payload" [("type", JStr "error"); ("payload", JStr "boom")])))
        example_cached),
   [EvState "S" "error"]).
Proof.
  apply (error_message_is_recorded "S" "graphql-ws" 250
           [("type", JStr "error"); ("payload", JStr "boom")] example_cached).
  reflexivity.
Defined.

(** X5.  A message of the data type is ignored (nothing written, nothing
    sent) when its id is not the subscription name, when its payload is not an
    object, or when neither its data nor its errors field is true. *)
Theorem data_message_is_ignored
    (name selected_proto : string) (now : Z)
    (fields : list (string * json)) (m : manager) :
  assoc "type" fields = Some (JStr (expected_data_type selected_proto)) ->
  str_eq (default JNull (assoc "id" fields)) name = false \/
  (exists p, assoc "payload" fields = Some p /\ type_name p <> "dict") \/
  (exists payload,
     default (JObj []) (assoc "payload" fields) = JObj payload /\
     truthy (default JNull (assoc "data" payload)) = false /\
     truthy (default JNull (assoc "errors" payload)) = false) ->
  handle_message name selected_proto
    {| at_time := now; content := Parsed (JObj fields) |} m = (false, m, []).
Proof.
  intros Hty H. unfold handle_message, dispatch. cbn. rewrite Hty. cbn.
  rewrite String.eqb_refl. cbn.
  destruct (str_eq (default JNull (assoc "id" fields)) name) eqn:Hid.
  - destruct H as [H|[(p & Hp & Hn)|(payload & Hp & Hd & He)]];
      [discriminate H| |].
    + rewrite Hp. cbn. destruct p; try reflexivity. now elim Hn.
    + rewrite Hp. cbn. rewrite Hd, He. reflexivity.
  - destruct (expected_data_type_cases selected_proto) as [-> | ->]; reflexivity.
Qed.

Lemma data_message_is_ignored_witness :
  handle_message "S" "graphql-transport-ws"
    {| at_time := 250;
       content := Parsed (JObj [("type", JStr "next"); ("id", JStr "other");
                                ("payload", JObj [("data", JObj [("y", JInt 2)])])]) |}
    example_cached =
  (false, example_cached, []).
Proof.
  apply (data_message_is_ignored "S" "graphql-transport-ws" 250
           [("type", JStr "next"); ("id", JStr "other");
            ("payload", JObj [("data", JObj [("y", JInt 2)])])] example_cached).
  - reflexivity.
  - left. reflexivity.
Defined.

(** ** Ends of a pass *)

(** X6.  An invalid WebSocket URI is not retried: the pass records the error,
    sets the state to [invalid_uri] and the coroutine returns after this one
    connection attempt, without sleeping, whatever the rest of the script. *)
Theorem invalid_uri_ends_the_loop
    (cfg : settings) (name query url msg : string) (variables : json)
    (rd : Q) (rest : list attempt_outcome) (m : manager) :
  configured (UNRAID_API_URL cfg) = Some url ->
  counter name m + 1 <= max_reconnect_attempts m ->
  subscription_loop_from cfg name query variables rd
    (ConnectRaises (InvalidURI msg) :: rest) m =
  (Returned,
   set_connection_state name "invalid_uri"
     (set_last_error name (Plain ("Invalid WebSocket URI: " ++ msg))
        (set_reconnect_attempts name (counter name m + 1) m)),
   [EvAttempts name (counter name m + 1); EvConnect (derive_ws_url url);
    EvState name "invalid_uri"]).
Proof.
  intros Hurl Hc. cbn. unfold try_block. rewrite Hurl. cbn.
  unfold counter in *.
  destruct (_ >? _) eqn:E; [apply Z.gtb_lt in E; lia | reflexivity].
Qed.

Lemma invalid_uri_ends_the_loop_witness :
  subscription_loop_from example_settings "logFileSubscription" "q" example_variables 5
    (ConnectRaises (InvalidURI "wss://host/graphql isn't a valid URI") ::
     [Opens example_silent]) (example_started None) =
  (Returned,
   set_connection_state "logFileSubscription" "invalid_uri"
     (set_last_error "logFileSubscription"
        (Plain ("Invalid WebSocket URI: " ++ "wss://host/graphql isn't a valid URI"))
        (set_reconnect_attempts "logFileSubscription"
           (counter "logFileSubscription" (example_started None) + 1)
           (example_started None))),
   [EvAttempts "logFileSubscription"
      (counter "logFileSubscription" (example_started None) + 1);
    EvConnect (derive_ws_url "https://host");
    EvState "logFileSubscription" "invalid_uri"]).
Proof.
  apply (invalid_uri_ends_the_loop example_settings "logFileSubscription" "q"
           "https://host" "wss://host/graphql isn't a valid URI" example_variables 5
           [Opens example_silent] (example_started None)).
  - reflexivity.
  - vm_compute. discriminate.
Defined.



(** ** No base URL *)

Section Unconfigured.

Variable cfg : settings.
Variables (name query : string) (variables : json).
Hypothesis url_missing : configured (UNRAID_API_URL cfg) = None.

(** Without a base URL a pass raises before it connects, and backs off. *)
Lemma loop_unconfigured_pass (rd : Q) (w : attempt_outcome)
    (rest : list attempt_outcome) (m : manager) :
  counter name m + 1 <= max_reconnect_attempts m ->
  subscription_loop_from cfg name query variables rd (w :: rest) m =
    prepend
      [EvAttempts name (counter name m + 1); EvState name "error";
       EvState name "reconnecting"; EvSleep (next_delay rd)]
      (subscription_loop_from cfg name query variables (next_delay rd) rest
         (after_failure name not_configured m)).
Proof.
  intros Hc. cbn. unfold try_block. rewrite url_missing. cbn.
  unfold counter in *.
  destruct (_ >? _) eqn:E; [apply Z.gtb_lt in E; lia |].
  unfold after_failure, counter. cbn.
  destruct (subscription_loop_from _ _ _ _ _ _ _) as [[st m2] log]. reflexivity.
Qed.

Lemma loop_unconfigured (ws : list attempt_outcome) :
  forall (rd : Q) (rest : list attempt_outcome) (m : manager),
  counter name m + Z.of_nat (length ws) = max_reconnect_attempts m ->
  let r := subscription_loop_from cfg name query variables rd (ws ++ rest) m in
  r.1.1 = Returned /\
  connects r.2 = 0%nat /\
  sleeps r.2 = map (fun i => Nat.iter i next_delay rd) (seq 1 (length ws)) /\
  connection_states r.1.2 !! name = Some "max_retries_exceeded" /\
  last_error r.1.2 !! name =
    match ws with
    | [] => last_error m !! name
    | _ => Some (failure_text not_configured)
    end.
Proof.
  induction ws as [|w ws IH]; intros rd rest m Hc r; subst r.
  - cbn [app length] in *. rewrite loop_exceeded by lia. cbn.
    repeat split. apply lookup_insert_eq.
  - cbn [app length] in *.
    rewrite loop_unconfigured_pass by lia.
    specialize (IH (next_delay rd) rest (after_failure name not_configured m)).
    rewrite counter_after_failure, max_after_failure in IH.
    specialize (IH ltac:(lia)). cbn zeta in IH.
    destruct IH as (I1 & I2 & I3 & I4 & I5).
    rewrite prepend_fst, prepend_snd.
    repeat split; try assumption.
    + rewrite sleeps_app, I3. cbn [seq map].
      rewrite <- (seq_shift (length ws) 1), map_map.
      cbn [sleeps omap app Nat.iter]. f_equal.
      apply map_ext. intros i. now rewrite Nat.iter_succ_r.
    + rewrite I5. destruct ws; [|reflexivity].
      cbn. apply lookup_insert_eq.
Qed.

End Unconfigured.

(** X8.  Without a configured base URL the loop never connects.  Every pass
    records the error "Unexpected error: UNRAID_API_URL is not configured" and
    backs off like after a transport failure; with a maximum of N the
    coroutine returns after N such passes with the state
    [max_retries_exceeded], having slept min(5 * 1.5^i, 300) seconds after the
    i-th pass. *)
Theorem missing_url_is_retried_until_attempts_run_out
    (cfg : settings) (name query : string) (variables : json)
    (ws rest : list attempt_outcome) (m : manager) :
  configured (UNRAID_API_URL cfg) = None ->
  counter name m = 0 ->
  max_reconnect_attempts m = Z.of_nat (length ws) ->
  let '(status, m', log) :=
    subscription_loop cfg name query variables (ws ++ rest) m in
  status = Returned /\
  connects log = 0%nat /\
  sleeps log = map backoff_delay (seq 1 (length ws)) /\
  connection_states m' !! name = Some "max_retries_exceeded" /\
  last_error m' !! name =
    match ws with
    | [] => last_error m !! name
    | _ => Some (Plain "Unexpected error: UNRAID_API_URL is not configured")
    end.
Proof.
  intros Hurl Hc Hmax.
  pose proof (loop_unconfigured cfg name query variables Hurl ws 5 rest m
                ltac:(lia)) as H.
  unfold subscription_loop.
  destruct (subscription_loop_from _ _ _ _ _ _ _) as [[status m'] log].
  exact H.
Qed.

Lemma missing_url_is_retried_until_attempts_run_out_witness :
  let '(status, m', log) :=
    subscription_loop {| UNRAID_API_URL := Some ""; UNRAID_API_KEY := None |}
      "logFileSubscription" "q" example_variables
      ([Opens example_silent; ConnectRaises refused] ++ [Opens example_silent])
      (example_started (Some 2)) in
  status = Returned /\
  connects log = 0%nat /\
  sleeps log = map backoff_delay (seq 1 2) /\
  connection_states m' !! "logFileSubscription" = Some "max_retries_exceeded" /\
  last_error m' !! "logFileSubscription" =
    Some (Plain "Unexpected error: UNRAID_API_URL is not configured").
Proof.
  apply (missing_url_is_retried_until_attempts_run_out
           {| UNRAID_API_URL := Some ""; UNRAID_API_KEY := None |}
           "logFileSubscription" "q" example_variables
           [Opens example_silent; ConnectRaises refused] [Opens example_silent]
           (example_started (Some 2))); reflexivity.
Defined.

(** ** What the loop leaves alone *)

Section Preservation.

Variable R : manager -> manager -> Prop.
Variable name : string.
Hypothesis R_refl : forall m, R m m.
Hypothesis R_trans : forall m1 m2 m3, R m1 m2 -> R m2 m3 -> R m1 m3.
Hypothesis R_state : forall s m, R m (set_connection_state name s m).
Hypothesis R_attempts : forall n m, R m (set_reconnect_attempts name n m).
Hypothesis R_error : forall t m, R m (set_last_error name t m).
Hypothesis R_data :
  forall d m, truthy (data d) = true -> R m (set_resource_data name d m).

Lemma preserves_ret {A : Type} (a : A) : preserves R (ret a).
Proof. intros m. apply R_refl. Qed.

Lemma preserves_bind {A B : Type} (c : M A) (k : A -> M B) :
  preserves R c -> (forall a, preserves R (k a)) -> preserves R (bind c k).
Proof.
  intros Hc Hk m. unfold bind.
  specialize (Hc m). destruct (c m) as [[a m1] log1].
  specialize (Hk a m1). destruct (k a m1) as [[b m2] log2].
  cbn in *. now apply R_trans with m1.
Qed.

Lemma preserves_emit (e : event) : preserves R (emit e).
Proof. intros m. apply R_refl. Qed.

Lemma preserves_read {A : Type} (f : manager -> A) : preserves R (read f).
Proof. intros m. apply R_refl. Qed.

Lemma preserves_write_state (s : string) : preserves R (write_state name s).
Proof. intros m. apply R_state. Qed.

Lemma preserves_write_attempts (n : Z) : preserves R (write_attempts name n).
Proof. intros m. apply R_attempts. Qed.

Lemma preserves_write_error (t : text) : preserves R (write_error name t).
Proof. intros m. apply R_error. Qed.

Lemma preserves_write_data (d : SubscriptionData) :
  truthy (data d) = true -> preserves R (write_data name d).
Proof. intros Hd m. now apply R_data. Qed.

Ltac preserves_step :=
  first
    [ apply preserves_ret
    | apply preserves_emit
    | apply preserves_read
    | apply preserves_write_state
    | apply preserves_write_attempts
    | apply preserves_write_error
    | apply preserves_write_data; assumption
    | apply preserves_bind; [|intros ?] ].

Ltac preserves_cases :=
  repeat
    (repeat preserves_step;
     try match goal with
         | |- preserves R (match ?x with _ => _ end) => destruct x eqn:?
         end).

Lemma preserves_dispatch (selected_proto : string) (now : Z) (v : json) :
  preserves R (dispatch name selected_proto now v).
Proof. unfold dispatch. preserves_cases. Qed.

Lemma preserves_handle_message (selected_proto : string) (a : arrival) :
  preserves R (handle_message name selected_proto a).
Proof.
  unfold handle_message. destruct (content a); [apply preserves_ret|].
  apply preserves_bind; [apply preserves_dispatch|]. intros []; apply preserves_ret.
Qed.

Lemma preserves_receive_loop (selected_proto : string) (fin : stream_end)
    (msgs : list arrival) :
  preserves R (receive_loop name selected_proto msgs fin).
Proof.
  induction msgs as [|a msgs IH]; cbn [receive_loop].
  - destruct fin; apply preserves_ret.
  - apply preserves_bind; [apply preserves_handle_message|].
    intros []; [apply preserves_ret | exact IH].
Qed.

Lemma preserves_subscribe_and_listen (selected_proto query : string)
    (variables : json) (o : opened) :
  preserves R (subscribe_and_listen name selected_proto query variables o).
Proof.
  unfold subscribe_and_listen. repeat preserves_step.
  - apply preserves_receive_loop.
  - destruct a1; apply preserves_ret.
Qed.

Lemma preserves_handle_init_reply (selected_proto query : string)
    (variables : json) (o : opened) :
  preserves R (handle_init_reply name selected_proto query variables o).
Proof.
  unfold handle_init_reply.
  repeat
    (repeat first [apply preserves_subscribe_and_listen | preserves_step];
     try match goal with
         | |- preserves R (match ?x with _ => _ end) => destruct x eqn:?
         end).
Qed.

Lemma preserves_try_block (cfg : settings) (query : string) (variables : json)
    (rd : Q) (w : attempt_outcome) :
  preserves R (try_block cfg name query variables rd w).
Proof.
  unfold try_block, session.
  repeat
    (repeat first [apply preserves_handle_init_reply | preserves_step];
     try match goal with
         | |- preserves R (match ?x with _ => _ end) => destruct x eqn:?
         end).
Qed.

Lemma preserves_handle_exception (e : exn) : preserves R (handle_exception name e).
Proof. unfold handle_exception. preserves_cases. Qed.

Lemma preserves_loop (cfg : settings) (query : string) (variables : json)
    (script : list attempt_outcome) :
  forall rd : Q, preserves R (subscription_loop_from cfg name query variables rd script).
Proof.
  induction script as [|w script IH]; intros rd; cbn [subscription_loop_from];
    repeat
      (repeat first [ apply preserves_try_block | apply preserves_handle_exception
                    | apply IH | preserves_step ];
       try match goal with
           | |- preserves R (match ?x with _ => _ end) => destruct x eqn:?
           end).
Qed.

End Preservation.

Lemma same_elsewhere_refl (name : string) (m : manager) : same_elsewhere name m m.
Proof. unfold same_elsewhere. repeat split. Qed.

Lemma same_elsewhere_trans (name : string) (m1 m2 m3 : manager) :
  same_elsewhere name m1 m2 -> same_elsewhere name m2 m3 -> same_elsewhere name m1 m3.
Proof.
  intros (A1 & B1 & C1 & D1 & E1) (A2 & B2 & C2 & D2 & E2).
  unfold same_elsewhere. repeat split; try congruence;
    destruct (E1 n H) as (? & ? & ? & ?), (E2 n H) as (? & ? & ? & ?); congruence.
Qed.

Lemma same_elsewhere_state (name s : string) (m : manager) :
  same_elsewhere name m (set_connection_state name s m).
Proof.
  unfold same_elsewhere. cbn. repeat split. now rewrite lookup_insert_ne.
Qed.

Lemma same_elsewhere_attempts (name : string) (n : Z) (m : manager) :
  same_elsewhere name m (set_reconnect_attempts name n m).
Proof.
  unfold same_elsewhere. cbn. repeat split. now rewrite lookup_insert_ne.
Qed.

Lemma same_elsewhere_error (name : string) (t : text) (m : manager) :
  same_elsewhere name m (set_last_error name t m).
Proof.
  unfold same_elsewhere. cbn. repeat split. now rewrite lookup_insert_ne.
Qed.

Lemma same_elsewhere_data (name : string) (d : SubscriptionData) (m : manager) :
  same_elsewhere name m (set_resource_data name d m).
Proof.
  unfold same_elsewhere. cbn. repeat split. now rewrite lookup_insert_ne.
Qed.

(** X9.  However the world answers, the loop of one subscription changes
    nothing but the entries of its own name in the cache, the connection
    states, the counters and the last errors: the entries of every other
    subscription, the active set, the registry and the configuration are as
    before. *)
Theorem loop_touches_only_its_own_entries
    (cfg : settings) (name query : string) (variables : json)
    (script : list attempt_outcome) (m : manager) :
  same_elsewhere name m (subscription_loop cfg name query variables script m).1.2.
Proof.
  apply (preserves_loop (same_elsewhere name) name).
  - apply same_elsewhere_refl.
  - apply same_elsewhere_trans.
  - intros s m0. apply same_elsewhere_state.
  - intros n m0. apply same_elsewhere_attempts.
  - intros t m0. apply same_elsewhere_error.
  - intros d m0 _. apply same_elsewhere_data.
Qed.

(** ** The cache holds true payloads only *)

Lemma cache_truthy_data (name : string) (d : SubscriptionData) (m : manager) :
  truthy (data d) = true -> cache_truthy m -> cache_truthy (set_resource_data name d m).
Proof.
  intros Hd Hm n d' Hn. cbn in Hn.
  destruct (decide (name = n)) as [->|Hne].
  - rewrite lookup_insert_eq in Hn. now injection Hn as <-.
  - rewrite lookup_insert_ne in Hn by exact Hne. now apply (Hm n).
Qed.

Lemma cache_truthy_loop
    (cfg : settings) (name query : string) (variables : json)
    (script : list attempt_outcome) (rd : Q) (m : manager) :
  cache_truthy m ->
  cache_truthy (subscription_loop_from cfg name query variables rd script m).1.2.
Proof.
  apply (preserves_loop (fun m m' => cache_truthy m -> cache_truthy m') name);
    try (intros; assumption).
  - intros m1 m2 m3 H12 H23 H1. auto.
  - intros d m0 Hd Hm. now apply cache_truthy_data.
Qed.

(** X10.  Only true payloads are ever cached.  Starting from a cache of true
    payloads (the empty cache of a new manager is one), after any run of a
    subscription loop the cache still holds true payloads only, and
    [logs_stream_resource] therefore serves the cached payload of the log
    subscription exactly when there is one; otherwise it serves the notice
    that no data has arrived yet. *)
Theorem cached_payloads_are_served
    (cfg : settings) (name query : string) (variables : json)
    (script : list attempt_outcome) (m : manager) :
  cache_truthy m ->
  let m' := (subscription_loop cfg name query variables script m).1.2 in
  cache_truthy m' /\
  (forall d, logs_stream_resource m' = ResourceData d <->
             get_resource_data "logFileSubscription" m' = Some d) /\
  (logs_stream_resource m' = NoSubscriptionDataYet <->
   get_resource_data "logFileSubscription" m' = None).
Proof.
  intros Hm m'.
  assert (Hm' : cache_truthy m') by now apply cache_truthy_loop.
  split; [exact Hm'|].
  unfold logs_stream_resource, get_resource_data.
  destruct (resource_data m' !! "logFileSubscription") as [d0|] eqn:E.
  - rewrite (Hm' _ _ E). split; [|split; discriminate].
    intros d. split; congruence.
  - split; [|split; reflexivity]. intros d. split; discriminate.
Qed.

Lemma cache_truthy_new_manager (env_auto_start : option string) (env_max : option Z) :
  cache_truthy (new_manager env_auto_start env_max).
Proof. intros n d H. cbn in H. rewrite lookup_empty in H. discriminate H. Qed.

Lemma cached_payloads_are_served_witness :
  let m' := (subscription_loop example_settings "logFileSubscription" "q"
               example_variables [Opens example_completed]
               (new_manager None None)).1.2 in
  cache_truthy m' /\
  (forall d, logs_stream_resource m' = ResourceData d <->
             get_resource_data "logFileSubscription" m' = Some d) /\
  (logs_stream_resource m' = NoSubscriptionDataYet <->
   get_resource_data "logFileSubscription" m' = None).
Proof.
  apply (cached_payloads_are_served example_settings "logFileSubscription" "q"
           example_variables [Opens example_completed] (new_manager None None)).
  apply cache_truthy_new_manager.
Defined.

(** ** Bounds of the backoff *)

Lemma next_delay_bounds (rd : Q) :
  (5 <= rd /\ rd <= 300)%Q ->
  backoff_bounds (next_delay rd) /\ (5 <= next_delay rd /\ next_delay rd <= 300)%Q.
Proof.
  intros [Hlo Hhi]. unfold backoff_bounds, next_delay, max_retry_delay.
  pose proof (Q.min_spec (rd * (3 # 2)) 300) as H.
  set (x := Qmin (rd * (3 # 2)) 300) in *.
  destruct H as [[H E]|[H E]]; repeat split; lra.
Qed.

Lemma try_block_delay_and_sleeps
    (cfg : settings) (name query : string) (variables : json)
    (rd : Q) (w : attempt_outcome) (m : manager) :
  let r := try_block cfg name query variables rd w m in
  sleeps r.2 = [] /\ (r.1.1.1 = rd \/ r.1.1.1 = 5%Q).
Proof.
  unfold try_block. destruct (configured (UNRAID_API_URL cfg)); [|cbn; auto].
  destruct w as [e|o]; [cbn; auto|].
  unfold session. cbn -[handle_init_reply].
  unfold bind, emit, write_state, write_attempts, ret.
  match goal with
  | |- context [handle_init_reply ?a ?b ?c ?d ?e ?m0] =>
      pose proof (quiet_handle_init_reply a c d b e m0) as (Hq & _ & _);
      destruct (handle_init_reply a b c d e m0) as [[r m1] log1]
  end.
  cbn in *. apply quiet_log_projections in Hq as (_ & _ & Hs & _).
  rewrite app_nil_r. split; [exact Hs | now right].
Qed.

Lemma handle_exception_sleeps (name : string) (e : exn) (m : manager) :
  sleeps (handle_exception name e m).2 = [].
Proof. now destruct e. Qed.

(** One pass of the loop, with attempts left, in terms of its parts. *)
Lemma loop_pass
    (cfg : settings) (name query : string) (variables : json)
    (rd : Q) (w : attempt_outcome) (script : list attempt_outcome) (m : manager) :
  counter name m + 1 <= max_reconnect_attempts m ->
  let r1 := try_block cfg name query variables rd w
              (set_reconnect_attempts name (counter name m + 1) m) in
  let r2 := match r1.1.1.2 with
            | Ok fl => (fl, r1.1.2, [])
            | Raise e => handle_exception name e r1.1.2
            end in
  subscription_loop_from cfg name query variables rd (w :: script) m =
  match r2.1.1 with
  | Break =>
      (Returned, r2.1.2,
       (EvAttempts name (counter name m + 1) :: r1.2 ++ r2.2)%list)
  | Fallthrough =>
      prepend
        (EvAttempts name (counter name m + 1) :: r1.2 ++ r2.2 ++
         [EvState name "reconnecting"; EvSleep (next_delay r1.1.1.1)])
        (subscription_loop_from cfg name query variables (next_delay r1.1.1.1)
           script (set_connection_state name "reconnecting" r2.1.2))
  end.
Proof.
  intros Hc. unfold counter in *. cbn -[try_block handle_exception].
  destruct (_ >? _) eqn:E; [apply Z.gtb_lt in E; lia |].
  unfold bind, read, write_attempts, write_state, emit, ret.
  cbn -[try_block handle_exception subscription_loop_from].
  destruct (try_block _ _ _ _ _ _ _) as [[[rd1 r] m1] log1].
  cbn -[handle_exception subscription_loop_from].
  destruct r as [fl|e].
  - destruct fl; cbn -[subscription_loop_from].
    + now rewrite ?app_nil_r.
    + destruct (subscription_loop_from _ _ _ _ _ _ _) as [[st m3] log3].
      cbn. now rewrite ?app_nil_r, <- ?app_assoc.
  - destruct (handle_exception name e m1) as [[fl m2] log2].
    destruct fl; cbn -[subscription_loop_from].
    + now rewrite ?app_nil_r.
    + destruct (subscription_loop_from _ _ _ _ _ _ _) as [[st m3] log3].
      cbn. now rewrite ?app_nil_r, <- ?app_assoc.
Qed.

Lemma loop_sleeps_bounded
    (cfg : settings) (name query : string) (variables : json)
    (script : list attempt_outcome) :
  forall (rd : Q) (m : manager),
  (5 <= rd /\ rd <= 300)%Q ->
  Forall backoff_bounds
    (sleeps (subscription_loop_from cfg name query variables rd script m).2).
Proof.
  induction script as [|w script IH]; intros rd m Hrd.
  - destruct (Z_lt_le_dec (max_reconnect_attempts m) (counter name m + 1)).
    + rewrite loop_exceeded by assumption. constructor.
    + rewrite loop_awaiting by assumption. constructor.
  - destruct (Z_lt_le_dec (max_reconnect_attempts m) (counter name m + 1)).
    { rewrite loop_exceeded by assumption. constructor. }
    rewrite loop_pass by assumption.
    pose proof (try_block_delay_and_sleeps cfg name query variables rd w
                  (set_reconnect_attempts name (counter name m + 1) m)) as [Hs Hd].
    cbn zeta in Hs, Hd.
    destruct (try_block _ _ _ _ _ _ _) as [[[rd1 r] m1] log1].
    cbn [fst snd] in *.
    assert (Hrd1 : (5 <= rd1 /\ rd1 <= 300)%Q).
    { destruct Hd as [-> | ->]; [exact Hrd | split; discriminate]. }
    destruct (next_delay_bounds rd1 Hrd1) as [Hb Hn].
    assert (Hs2 : sleeps
                    (match r with
                     | Ok fl => (fl, m1, [])
                     | Raise e => handle_exception name e m1
                     end).2 = []).
    { destruct r; [reflexivity | apply handle_exception_sleeps]. }
    destruct (match r with Ok fl => _ | Raise e => _ end) as [[fl m2] log2].
    cbn [fst snd] in *.
    destruct fl.
    + cbn [snd]. change (EvAttempts name (counter name m + 1) :: log1 ++ log2)%list
        with ([EvAttempts name (counter name m + 1)] ++ log1 ++ log2)%list.
      rewrite !sleeps_app, Hs, Hs2. constructor.
    + rewrite prepend_snd.
      change (EvAttempts name (counter name m + 1) :: log1 ++ log2 ++
              [EvState name "reconnecting"; EvSleep (next_delay rd1)])%list
        with ([EvAttempts name (counter name m + 1)] ++ log1 ++ log2 ++
              [EvState name "reconnecting"; EvSleep (next_delay rd1)])%list.
      rewrite !sleeps_app, Hs, Hs2. cbn [sleeps omap app].
      constructor; [exact Hb | now apply IH].
Qed.

(** X11.  Every sleep the loop ever performs lasts between 7.5 and 300
    seconds, however the world answers and whatever the manager holds. *)
Theorem every_sleep_is_between_floor_and_ceiling
    (cfg : settings) (name query : string) (variables : json)
    (script : list attempt_outcome) (m : manager) :
  Forall backoff_bounds
    (sleeps (subscription_loop cfg name query variables script m).2).
Proof.
  apply loop_sleeps_bounded. split; discriminate.
Qed.

(** ** Restarting and reporting *)

Lemma running_tasks_ended (s : system) (name : string) (t : nat) :
  registered_tasks s ->
  active_subscriptions (mgr s) !! name = Some t ->
  (forall tk, tasks s !! t = Some tk -> task_status tk <> TaskRunning) ->
  running_tasks name s = 0%nat.
Proof.
  intros [Hrun _] Hn Hended. unfold running_tasks.
  rewrite filter_none; [reflexivity|].
  intros i a Hi. destruct (is_running name a) eqn:F; [|reflexivity].
  apply is_running_true in F as [Na Sa].
  pose proof (Hrun i a Hi Sa) as Ha. rewrite Na, Hn in Ha.
  injection Ha as ->. now elim (Hended a Hi).
Qed.

Lemma start_fresh (name query : string) (variables : option json) (s : system) :
  registered_tasks s ->
  active_subscriptions (mgr s) !! name = None ->
  let s' := start_subscription name query variables s in
  running_tasks name s' = 1%nat /\
  tasks s' = (tasks s ++
              [{| task_name := name; task_query := query;
                  task_variables := or_empty variables;
                  task_status := TaskRunning |}])%list /\
  active_subscriptions (mgr s') = <[name := length (tasks s)]> (active_subscriptions (mgr s)) /\
  reconnect_attempts (mgr s') = <[name := 0]> (reconnect_attempts (mgr s)) /\
  connection_states (mgr s') !! name = Some "active" /\
  resource_data (mgr s') = resource_data (mgr s) /\
  last_error (mgr s') = last_error (mgr s).
Proof.
  intros Hs Hn s'. subst s'. unfold start_subscription.
  destruct (decide _) as [[t Ht]|_]; [congruence|].
  pose proof (running_tasks_inactive s name Hs Hn) as Hz.
  unfold running_tasks in *. cbn [tasks mgr].
  rewrite List.filter_app, length_app, Hz.
  cbn [List.filter]. unfold is_running. cbn [task_name task_status].
  rewrite String.eqb_refl. cbn. repeat split. apply lookup_insert_eq.
Qed.

(** X12.  A loop that has returned by itself (attempts used up, authentication
    rejected, invalid URI, malformed init answer) leaves its name in the active
    set: no task runs for the name, and yet [start_subscription] for it does
    nothing.  Only [stop_subscription] followed by [start_subscription]
    restarts it: then exactly one task runs for the name, its counter is 0,
    its state is [active], and the cache and the last errors are those from
    before. *)
Theorem ended_subscription_restarts_only_after_stop
    (m0 : manager) (s : system) (name query : string) (variables : option json)
    (t : nat) :
  active_subscriptions m0 = ∅ ->
  reachable m0 s ->
  active_subscriptions (mgr s) !! name = Some t ->
  let ended := {| mgr := mgr s; tasks := alter finish t (tasks s) |} in
  let restarted :=
    start_subscription name query variables (stop_subscription name ended) in
  running_tasks name ended = 0%nat /\
  start_subscription name query variables ended = ended /\
  running_tasks name restarted = 1%nat /\
  counter name (mgr restarted) = 0 /\
  connection_states (mgr restarted) !! name = Some "active" /\
  resource_data (mgr restarted) = resource_data (mgr s) /\
  last_error (mgr restarted) = last_error (mgr s).
Proof.
  intros H0 Hr Hn ended restarted.
  pose proof (registered_reachable m0 s H0 Hr) as Hs.
  assert (He : registered_tasks ended)
    by (apply (registered_step s ended); [constructor | exact Hs]).
  pose proof (registered_stop name ended He) as Hst.
  assert (Hstop : active_subscriptions (mgr (stop_subscription name ended)) !! name = None).
  { unfold stop_subscription. cbn. rewrite Hn. cbn. apply lookup_delete_eq. }
  destruct (start_fresh name query variables _ Hst Hstop)
    as (R1 & _ & _ & R4 & R5 & R6 & R7).
  fold restarted in R1, R4, R5, R6, R7.
  split.
  { apply (running_tasks_ended ended name t He Hn).
    intros tk Htk. cbn in Htk. rewrite list_lookup_alter_eq in Htk.
    destruct (tasks s !! t) as [tk0|]; [|discriminate Htk].
    injection Htk as <-. apply finish_not_running. }
  split; [apply start_active; cbn; rewrite Hn; eauto|].
  split; [exact R1|].
  split; [unfold counter; rewrite R4; now rewrite lookup_insert_eq|].
  split; [exact R5|].
  split.
  - rewrite R6. unfold stop_subscription. cbn. now rewrite Hn.
  - rewrite R7. unfold stop_subscription. cbn. now rewrite Hn.
Qed.

Lemma ended_subscription_restarts_only_after_stop_witness :
  let s := start_subscription "logFileSubscription" "q" None
             (initial_system (new_manager None None)) in
  let ended := {| mgr := mgr s; tasks := alter finish 0%nat (tasks s) |} in
  let restarted :=
    start_subscription "logFileSubscription" "q2" None
      (stop_subscription "logFileSubscription" ended) in
  running_tasks "logFileSubscription" ended = 0%nat /\
  start_subscription "logFileSubscription" "q2" None ended = ended /\
  running_tasks "logFileSubscription" restarted = 1%nat /\
  counter "logFileSubscription" (mgr restarted) = 0 /\
  connection_states (mgr restarted) !! "logFileSubscription" = Some "active" /\
  resource_data (mgr restarted) = resource_data (mgr s) /\
  last_error (mgr restarted) = last_error (mgr s).
Proof.
  apply (ended_subscription_restarts_only_after_stop (new_manager None None)
           (start_subscription "logFileSubscription" "q" None
              (initial_system (new_manager None None)))
           "logFileSubscription" "q2" None 0%nat).
  - reflexivity.
  - eapply reachable_step; [apply reachable_init | constructor].
  - reflexivity.
Defined.

Lemma listed_iff_registered (name : string) (m : manager) :
  name ∈ list_active_subscriptions m <-> is_Some (active_subscriptions m !! name).
Proof.
  unfold list_active_subscriptions. split.
  - intros Hin. apply list_elem_of_fmap in Hin as ([k v] & -> & Hin).
    apply elem_of_map_to_list in Hin. cbn. eauto.
  - intros [t Ht]. apply list_elem_of_fmap. exists (name, t).
    split; [reflexivity | now apply elem_of_map_to_list].
Qed.

(** X13.  The status report has an entry exactly for the names of the
    registry: a subscription started under another name is not reported.  In
    the entry of a registry name, [active] says whether the name is in the
    list of active subscriptions, the data is flagged available exactly when
    [get_resource_data] returns a payload, and its age is the time since the
    cached payload was stored. *)
Theorem status_agrees_with_the_other_readers (now : Z) (m : manager) (name : string) :
  match subscription_configs m !! name with
  | Some config =>
      exists st,
        get_subscription_status now m !! name = Some st /\
        st_resource st = resource config /\
        (st_active (st_runtime st) = true <-> name ∈ list_active_subscriptions m) /\
        (st_available (st_data st) = true <-> is_Some (get_resource_data name m)) /\
        st_age_seconds (st_data st) =
          (fun d => now - last_updated d) <$> resource_data m !! name /\
        st_reconnect_attempts (st_runtime st) = counter name m
  | None => get_subscription_status now m !! name = None
  end.
Proof.
  unfold get_subscription_status. rewrite map_lookup_imap.
  destruct (subscription_configs m !! name) as [config|]; [|reflexivity].
  cbn. eexists. split; [reflexivity|]. cbn.
  split; [reflexivity|].
  split; [rewrite bool_decide_eq_true; symmetry; apply listed_iff_registered|].
  unfold get_resource_data.
  destruct (resource_data m !! name) as [d|]; cbn;
    repeat split; eauto; try discriminate.
  intros [x Hx]. discriminate Hx.
Qed.

(** ** Auto-start *)

Lemma start_lookup_other (name n query : string) (variables : option json) (s : system) :
  n <> name ->
  active_subscriptions (mgr (start_subscription name query variables s)) !! n =
  active_subscriptions (mgr s) !! n.
Proof.
  intros Hne. unfold start_subscription. destruct (decide _); [reflexivity|].
  cbn. now rewrite lookup_insert_ne.
Qed.

Lemma start_keeps_registered (name n query : string) (variables : option json)
    (s : system) :
  is_Some (active_subscriptions (mgr s) !! n) ->
  is_Some (active_subscriptions (mgr (start_subscription name query variables s)) !! n).
Proof.
  intros H. destruct (decide (n = name)) as [->|Hne].
  - apply start_registers.
  - now rewrite start_lookup_other.
Qed.

Lemma auto_start_fold_keeps (l : list (string * subscription_config)) :
  forall (s : system) (n : string),
  is_Some (active_subscriptions (mgr s) !! n) ->
  is_Some (active_subscriptions (mgr (foldl auto_start_one s l)) !! n).
Proof.
  induction l as [|[k c] l IH]; intros s n H; cbn [foldl]; [exact H|].
  apply IH. unfold auto_start_one. cbn.
  destruct (auto_start c); [now apply start_keeps_registered | exact H].
Qed.

Lemma auto_start_fold_starts (l : list (string * subscription_config)) :
  forall (s : system) (n : string) (c : subscription_config),
  (n, c) ∈ l -> auto_start c = true ->
  is_Some (active_subscriptions (mgr (foldl auto_start_one s l)) !! n).
Proof.
  induction l as [|[k c0] l IH]; intros s n c Hin Hc; cbn [foldl].
  - now apply elem_of_nil in Hin.
  - apply elem_of_cons in Hin as [Heq|Hin].
    + injection Heq as <- <-. apply auto_start_fold_keeps.
      unfold auto_start_one. cbn. rewrite Hc. apply start_registers.
    + now apply (IH _ n c).
Qed.

Lemma auto_start_fold_skips (l : list (string * subscription_config)) :
  forall (s : system) (n : string),
  (forall c, (n, c) ∈ l -> auto_start c = false) ->
  active_subscriptions (mgr (foldl auto_start_one s l)) !! n =
  active_subscriptions (mgr s) !! n.
Proof.
  induction l as [|[k c0] l IH]; intros s n H; cbn [foldl]; [reflexivity|].
  rewrite IH by (intros c Hc; apply H; now right).
  unfold auto_start_one. cbn. destruct (auto_start c0) eqn:E; [|reflexivity].
  apply start_lookup_other. intros ->.
  rewrite (H c0) in E by now left. discriminate E.
Qed.

Lemma start_keeps_configs (name query : string) (variables : option json) (s : system) :
  subscription_configs (mgr (start_subscription name query variables s)) =
  subscription_configs (mgr s).
Proof. unfold start_subscription. now destruct (decide _). Qed.

Lemma auto_start_fold_unflagged (l : list (string * subscription_config)) (s : system) :
  (forall e, e ∈ l -> auto_start e.2 = false) -> foldl auto_start_one s l = s.
Proof.
  revert s. induction l as [|e l IH]; intros s H; cbn [foldl]; [reflexivity|].
  unfold auto_start_one at 2. rewrite (H e) by now left.
  apply IH. intros e' He'. apply H. now right.
Qed.


(** X14.  [auto_start_all_subscriptions] does nothing when auto-start is
    disabled.  When it is enabled, every registry entry flagged [auto_start] is
    registered afterwards, and a name that is not in the registry, or is in it
    without the flag, is registered afterwards exactly if it was before.  With
    the registry as shipped, whose only entry is not flagged, it starts
    nothing. *)
Theorem auto_start_starts_the_flagged_entries (s : system) (name : string) :
  (auto_start_enabled (mgr s) = false -> auto_start_all_subscriptions s = s) /\
  (auto_start_enabled (mgr s) = true ->
   match subscription_configs (mgr s) !! name with
   | Some config =>
       if auto_start config
       then is_Some (active_subscriptions (mgr (auto_start_all_subscriptions s)) !! name)
       else active_subscriptions (mgr (auto_start_all_subscriptions s)) !! name =
            active_subscriptions (mgr s) !! name
   | None =>
       active_subscriptions (mgr (auto_start_all_subscriptions s)) !! name =
       active_subscriptions (mgr s) !! name
   end) /\
  (subscription_configs (mgr s) = subscription_configs (new_manager None None) ->
   auto_start_all_subscriptions s = s).
Proof.
  unfold auto_start_all_subscriptions. split; [intros ->; reflexivity|]. split.
  - intros ->.
    destruct (subscription_configs (mgr s) !! name) as [config|] eqn:E.
    + destruct (auto_start config) eqn:Ea.
      * apply (auto_start_fold_starts _ s name config); [|exact Ea].
        now apply elem_of_map_to_list.
      * apply auto_start_fold_skips. intros c Hc.
        apply elem_of_map_to_list in Hc. congruence.
    + apply auto_start_fold_skips. intros c Hc.
      apply elem_of_map_to_list in Hc. congruence.
  - intros Hreg. destruct (auto_start_enabled (mgr s)); [|reflexivity].
    apply auto_start_fold_unflagged. intros [k c] He.
    apply elem_of_map_to_list in He. rewrite Hreg in He. cbn in He.
    apply lookup_singleton_Some in He as [_ <-]. reflexivity.
Qed.

Lemma auto_start_starts_the_flagged_entries_witness :
  let s := initial_system (new_manager (Some "TRUE") None) in
  (auto_start_enabled (mgr s) = false -> auto_start_all_subscriptions s = s) /\
  (auto_start_enabled (mgr s) = true ->
   match subscription_configs (mgr s) !! "logFileSubscription" with
   | Some config =>
       if auto_start config
       then is_Some (active_subscriptions (mgr (auto_start_all_subscriptions s))
                       !! "logFileSubscription")
       else active_subscriptions (mgr (auto_start_all_subscriptions s))
              !! "logFileSubscription" =
            active_subscriptions (mgr s) !! "logFileSubscription"
   | None =>
       active_subscriptions (mgr (auto_start_all_subscriptions s))
         !! "logFileSubscription" =
       active_subscriptions (mgr s) !! "logFileSubscription"
   end) /\
  (subscription_configs (mgr s) = subscription_configs (new_manager None None) ->
   auto_start_all_subscriptions s = s).
Proof.
  exact (auto_start_starts_the_flagged_entries
           (initial_system (new_manager (Some "TRUE") None)) "logFileSubscription").
Defined.



(** ** The latest payload wins *)

Lemma handle_data_frame (name selected_proto : string) (entry : Z * json) (m : manager) :
  truthy entry.2 = true ->
  handle_message name selected_proto (data_frame selected_proto name entry) m =
  (false,
   set_resource_data name
     {| data := entry.2; last_updated := entry.1; subscription_type := name |} m,
   []).
Proof.
  intros Ht. unfold handle_message, dispatch, data_frame. cbn.
  rewrite !String.eqb_refl. cbn. rewrite Ht. reflexivity.
Qed.

Lemma receive_data_frames (name selected_proto : string) (fin : stream_end)
    (entries : list (Z * json)) :
  forall (m : manager) (entry : Z * json),
  Forall (fun e => truthy e.2 = true) (entries ++ [entry]) ->
  resource_data
    (receive_loop name selected_proto
       (map (data_frame selected_proto name) (entries ++ [entry])) fin m).1.2 =
  <[name := {| data := entry.2; last_updated := entry.1; subscription_type := name |}]>
    (resource_data m).
Proof.
  induction entries as [|e entries IH]; intros m entry Hall;
    cbn [app map receive_loop]; unfold bind;
    apply Forall_cons in Hall as [He Hall];
    rewrite handle_data_frame by exact He.
  - destruct fin; reflexivity.
  - specialize (IH (set_resource_data name
                      {| data := e.2; last_updated := e.1; subscription_type := name |} m)
                  entry Hall).
    destruct (receive_loop _ _ _ _ _) as [[r m1] log1]. cbn in IH |- *.
    rewrite IH. cbn. apply insert_insert_eq.
Qed.

(** X16.  After a stream of data messages for the subscription, each with a
    true data field, the cache entry of the name holds the data of the last
    message and the time at which that message was handled; nothing of the
    earlier messages is left, and the entries of other names are as before. *)
Theorem latest_payload_wins
    (name selected_proto : string) (fin : stream_end)
    (earlier : list (Z * json)) (last : Z * json) (m : manager) :
  Forall (fun e => truthy e.2 = true) (earlier ++ [last]) ->
  let m' := (receive_loop name selected_proto
               (map (data_frame selected_proto name) (earlier ++ [last])) fin m).1.2 in
  resource_data m' =
    <[name := {| data := last.2; last_updated := last.1; subscription_type := name |}]>
      (resource_data m) /\
  get_resource_data name m' = Some last.2 /\
  (forall n, n <> name -> get_resource_data n m' = get_resource_data n m).
Proof.
  intros Hall m'.
  pose proof (receive_data_frames name selected_proto fin earlier m last Hall) as H.
  fold m' in H. unfold get_resource_data. rewrite H.
  split; [reflexivity|]. split.
  - now rewrite lookup_insert_eq.
  - intros n Hn. now rewrite lookup_insert_ne.
Qed.

Lemma latest_payload_wins_witness :
  let earlier := [(100, JObj [("x", JInt 1); ("y", JInt 2)]); (101, JStr "tick")] in
  let last := (102, JObj [("x", JInt 3)]) in
  let m' := (receive_loop "S" "graphql-ws"
               (map (data_frame "graphql-ws" "S") (earlier ++ [last]))
               EndOfStream example_cached).1.2 in
  resource_data m' =
    <["S" := {| data := last.2; last_updated := last.1; subscription_type := "S" |}]>
      (resource_data example_cached) /\
  get_resource_data "S" m' = Some last.2 /\
  (forall n, n <> "S" -> get_resource_data n m' = get_resource_data n example_cached).
Proof.
  apply (latest_payload_wins "S" "graphql-ws" EndOfStream
           [(100, JObj [("x", JInt 1); ("y", JInt 2)]); (101, JStr "tick")]
           (102, JObj [("x", JInt 3)]) example_cached).
  repeat constructor.
Defined.

(** ** Where the two URLs agree *)

Lemma prefix_true_app (p s : string) :
  String.prefix p s = true -> exists t, s = p ++ t.
Proof.
  revert s. induction p as [|c p IH]; intros s H.
  - exists s. reflexivity.
  - destruct s as [|c' s]; [discriminate H|]. cbn in H.
    destruct (ascii_dec c c') as [<-|]; [|discriminate H].
    destruct (IH s H) as [t ->]. exists t. reflexivity.
Qed.

Lemma no_slash_app (p t : string) : no_slash (p ++ t) = no_slash p && no_slash t.
Proof.
  induction p as [|c p IH]; [reflexivity|].
  change (no_slash (String c (p ++ t)) = no_slash (String c p) && no_slash t).
  cbn [no_slash]. rewrite IH. now rewrite andb_assoc.
Qed.

(** Nothing is replaced in a string without slash when the pattern has one. *)
Lemma replace_no_slash (old new s : string) :
  no_slash old = false -> no_slash s = true ->
  PyStr.replace_from 0 old new s = s.
Proof.
  intros Hold. induction s as [|c s IH]; intros Hs; [reflexivity|].
  cbn [PyStr.replace_from].
  destruct (String.prefix old (String c s)) eqn:E.
  - apply prefix_true_app in E as [t E]. rewrite E, no_slash_app, Hold in Hs.
    discriminate Hs.
  - cbn [no_slash] in Hs. apply andb_prop in Hs as [_ Hs]. now rewrite IH.
Qed.

Lemma replace_skip (old new t : string) :
  forall s, PyStr.replace_from (String.length t) old new (t ++ s) =
            PyStr.replace_from 0 old new s.
Proof. induction t as [|c t IH]; intros s; [reflexivity | apply IH]. Qed.

(** An occurrence at the start is replaced and the search goes on behind it. *)
Lemma replace_prefix (c : ascii) (old new s : string) :
  PyStr.replace_from 0 (String c old) new (String c old ++ s) =
  new ++ PyStr.replace_from 0 (String c old) new s.
Proof.
  change (String c old ++ s) with (String c (old ++ s)).
  cbn [PyStr.replace_from].
  change (String c (old ++ s)) with (String c old ++ s).
  rewrite prefix_app.
  replace (String.length (String c old) - 1)%nat with (String.length old)
    by (cbn [String.length]; lia).
  now rewrite replace_skip.
Qed.

Lemma test_subscription_query_ws_url_plain (secure : bool) (rest : string) :
  no_slash rest = true ->
  test_subscription_query_ws_url (http_scheme secure ++ rest) =
  (ws_scheme secure ++ rest) ++ "/graphql".
Proof.
  intros Hrest. unfold test_subscription_query_ws_url, PyStr.replace.
  assert (H1 : PyStr.replace_from 0 "https://" "wss://" rest = rest)
    by now apply replace_no_slash.
  assert (H2 : PyStr.replace_from 0 "http://" "ws://" rest = rest)
    by now apply replace_no_slash.
  destruct secure; cbn [http_scheme ws_scheme].
  - rewrite replace_prefix, H1.
    change (PyStr.replace_from 0 "http://" "ws://" ("wss://" ++ rest))
      with ("wss://" ++ PyStr.replace_from 0 "http://" "ws://" rest).
    now rewrite H2.
  - change (PyStr.replace_from 0 "https://" "wss://" ("http://" ++ rest))
      with ("http://" ++ PyStr.replace_from 0 "https://" "wss://" rest).
    rewrite H1, replace_prefix. now rewrite H2.
Qed.

(** X17.  For a base URL that is a scheme followed by a host without any
    slash ([https://tower.local:8443]), such that the WebSocket URL neither
    ends in a slash (the host is not empty) nor in [/graphql] (the host is not
    [graphql]), [test_subscription_query] and the subscription loop connect
    to the same URL: the WebSocket scheme, the host and [/graphql]. *)
Theorem urls_agree_on_plain_hosts (secure : bool) (rest : string) :
  no_slash rest = true ->
  PyStr.endswith (ws_scheme secure ++ rest) "/" = false ->
  PyStr.endswith (ws_scheme secure ++ rest) "/graphql" = false ->
  test_subscription_query_ws_url (http_scheme secure ++ rest) =
    derive_ws_url (http_scheme secure ++ rest) /\
  derive_ws_url (http_scheme secure ++ rest) =
    (ws_scheme secure ++ rest) ++ "/graphql".
Proof.
  intros Hrest Hslash Hsuffix.
  rewrite test_subscription_query_ws_url_plain by exact Hrest.
  destruct secure; cbn [http_scheme ws_scheme] in *.
  - rewrite (derive_ws_url_https rest Hslash), Hsuffix. now split.
  - rewrite (derive_ws_url_http rest Hslash), Hsuffix. now split.
Qed.

Lemma urls_agree_on_plain_hosts_witness :
  test_subscription_query_ws_url (http_scheme true ++ "tower.local:8443") =
    derive_ws_url (http_scheme true ++ "tower.local:8443") /\
  derive_ws_url (http_scheme true ++ "tower.local:8443") =
    (ws_scheme true ++ "tower.local:8443") ++ "/graphql".
Proof.
  apply (urls_agree_on_plain_hosts true "tower.local:8443"); reflexivity.
Defined.

(** The host [graphql] shows why the last hypothesis is needed. *)
Example host_named_graphql :
  derive_ws_url "https://graphql" = "wss://graphql" /\
  test_subscription_query_ws_url "https://graphql" = "wss://graphql/graphql".
Proof. split; reflexivity. Qed.

(** ** Other answers to [connection_init] *)

(** X18.  An answer to [connection_init] that is valid JSON but not an object
    is, unlike an answer that is not JSON at all, retried: the pass records
    "Unexpected error: '<type>' object has no attribute 'get'", sets the state
    to [error] and then [reconnecting], sleeps 7.5 seconds, and the loop goes
    on with the next attempt. *)
Theorem non_object_init_answer_is_retried
    (cfg : settings) (name query url : string) (variables : json)
    (o : opened) (v : json) (rd : Q) (rest : list attempt_outcome) (m : manager) :
  configured (UNRAID_API_URL cfg) = Some url ->
  counter name m + 1 <= max_reconnect_attempts m ->
  init_reply o = RecvFrame (Parsed v) ->
  type_name v <> "dict" ->
  exists m1 : manager,
    subscription_loop_from cfg name query variables rd (Opens o :: rest) m =
      prepend
        [EvAttempts name (counter name m + 1); EvConnect (derive_ws_url url);
         EvState name "connected"; EvAttempts name 0; EvSend (init_payload cfg);
         EvState name "error"; EvState name "reconnecting"; EvSleep (15 # 2)]
        (subscription_loop_from cfg name query variables (15 # 2) rest m1) /\
    last_error m1 !! name =
      Some (Plain ("Unexpected error: '" ++ type_name v ++
                   "' object has no attribute 'get'")) /\
    connection_states m1 !! name = Some "reconnecting" /\
    counter name m1 = 0 /\
    resource_data m1 = resource_data m.
Proof.
  intros Hurl Hc Hinit Hv. cbn. unfold try_block. rewrite Hurl. cbn.
  unfold counter in *.
  destruct (_ >? _) eqn:E; [apply Z.gtb_lt in E; lia |].
  unfold session, handle_init_reply. rewrite Hinit.
  change (15 # 2)%Q with (next_delay 5).
  destruct v; try (now elim Hv); cbn;
    match goal with
    | |- context [subscription_loop_from _ _ _ _ _ rest ?mm] => exists mm
    end;
    (split;
     [ destruct (subscription_loop_from _ _ _ _ _ _ _) as [[st m2] log2];
       reflexivity
     | cbn; repeat split; rewrite ?lookup_insert_eq; reflexivity ]).
Qed.

Lemma non_object_init_answer_is_retried_witness :
  exists m1 : manager,
    subscription_loop_from example_settings "logFileSubscription" "q"
      example_variables 5 (Opens example_init_array :: []) (example_started None) =
      prepend
        [EvAttempts "logFileSubscription"
           (counter "logFileSubscription" (example_started None) + 1);
         EvConnect (derive_ws_url "https://host");
         EvState "logFileSubscription" "connected";
         EvAttempts "logFileSubscription" 0; EvSend (init_payload example_settings);
         EvState "logFileSubscription" "error";
         EvState "logFileSubscription" "reconnecting"; EvSleep (15 # 2)]
        (subscription_loop_from example_settings "logFileSubscription" "q"
           example_variables (15 # 2) [] m1) /\
    last_error m1 !! "logFileSubscription" =
      Some (Plain ("Unexpected error: '" ++ type_name (JArr [JStr "connection_ack"]) ++
                   "' object has no attribute 'get'")) /\
    connection_states m1 !! "logFileSubscription" = Some "reconnecting" /\
    counter "logFileSubscription" m1 = 0 /\
    resource_data m1 = resource_data (example_started None).
Proof.
  apply (non_object_init_answer_is_retried example_settings "logFileSubscription"
           "q" "https://host" example_variables example_init_array
           (JArr [JStr "connection_ack"]) 5 [] (example_started None)).
  - reflexivity.
  - vm_compute. discriminate.
  - reflexivity.
  - discriminate.
Defined.

(** ** No orphaned tasks *)



(** ** Starting or stopping one name leaves the others alone *)



